(** * cursor-setup: template resolution, caching and the safe write

    A shallow embedding of [src/cursor_setup/main.py]: the registry merge
    ([get_registry]), the cache store ([load_from_cache], [save_to_cache]),
    the download ([download_from_url]), the installer ([write_cursorrules]),
    the two commands that resolve a template ([install], [show]) and the
    command that shows the registry ([list], here [list_templates]).

    Python values coming out of [response.json()] are modelled by [json];
    the file system, the network and the terminal are an explicit [world]
    threaded through a state-and-exception monad [M].  Every file-system,
    network and terminal operation of the source appends one [event] to the
    world's log, so that "no fetch", "no cache access" and "asked before
    the write" are statements about that log.

    What the environment is taken to do: the [exists()] tests answer (the
    directories can be searched); files are POSIX text files, so that a
    write leaves the line endings alone and a read translates them; the
    cache is the set of files of the cache directory itself; texts encode
    as UTF-8; [rich] prints the program's own messages, and may reject
    the two texts that come from outside the registry, the argument of
    the user in the "not found" message and the text of a template in the
    panel of [show]. *)

From Stdlib Require Import ZArith String Ascii.
From stdpp Require Import base decidable countable gmap strings list sorting.

Set Warnings "-register-all".

Open Scope string_scope.
Open Scope list_scope.
Open Scope Z_scope.

(** ** Python values *)

(** A value produced by [json.loads].  Objects keep their members in
    document order; as in Python, a later duplicate member overrides an
    earlier one.  JSON numbers are modelled by integers: the code never
    inspects a number, numbers only matter as dictionary keys. *)
Inductive json : Type :=
| JNull
| JBool (b : bool)
| JNum (z : Z)
| JStr (s : string)
| JArr (items : list json)
| JObj (members : list (string * json)).

(** The exceptions that the modelled code raises or catches.
    [RequestException] stands for the whole [requests] hierarchy
    (connection errors, timeouts, [HTTPError] of [raise_for_status]);
    [ValueError] includes JSON decoding errors and [UnicodeDecodeError];
    [NotRenderableError] and [MarkupError] are those of [rich];
    [Exit] is [typer.Exit], [Abort] is [typer.Abort]. *)
Inductive exn : Type :=
| RequestException
| ValueError
| KeyError
| TypeError
| OSError
| NotRenderableError
| MarkupError
| Exit (code : Z)
| Abort.

Inductive result (A : Type) : Type :=
| Ok (a : A)
| Raise (e : exn).
Arguments Ok {A} a.
Arguments Raise {A} e.

(** Hashable Python values that can become dictionary keys.  [True] and
    [False] are the keys [1] and [0]. *)
Inductive pykey : Type :=
| KNone
| KInt (z : Z)
| KStr (s : string).

#[global] Instance pykey_eq_dec : EqDecision pykey.
Proof. solve_decision. Defined.

Definition pykey_enc (k : pykey) : unit + (Z + string) :=
  match k with
  | KNone => inl tt
  | KInt z => inr (inl z)
  | KStr s => inr (inr s)
  end.

Definition pykey_dec (x : unit + (Z + string)) : pykey :=
  match x with
  | inl _ => KNone
  | inr (inl z) => KInt z
  | inr (inr s) => KStr s
  end.

#[global] Instance pykey_countable : Countable pykey.
Proof.
  apply (inj_countable' pykey_enc pykey_dec).
  intros []; reflexivity.
Defined.

(** A registry is a Python [dict]: template key to template descriptor. *)
Abbreviation registry := (gmap pykey json).

Definition hashable (v : json) : option pykey :=
  match v with
  | JNull => Some KNone
  | JBool b => Some (KInt (if b then 1 else 0))
  | JNum z => Some (KInt z)
  | JStr s => Some (KStr s)
  | JArr _ | JObj _ => None
  end.

(** Truthiness of a [str] and of an [Optional[str]]. *)
Definition truthy (s : string) : bool :=
  match s with
  | EmptyString => false
  | String _ _ => true
  end.

Definition truthy_opt (o : option string) : bool :=
  match o with
  | Some s => truthy s
  | None => false
  end.

(** The string that an [Optional[str]] holds when [if o:] succeeds. *)
Definition if_truthy (o : option string) : option string :=
  match o with
  | Some s => if truthy s then Some s else None
  | None => None
  end.

(** What [read_text] makes of the line endings of a file (universal
    newlines): a carriage return followed by a line feed, and a carriage
    return alone, are read as one line feed. *)
Definition CR : ascii := "013"%char.
Definition LF : ascii := "010"%char.

Fixpoint universal_newlines (s : string) : string :=
  match s with
  | EmptyString => EmptyString
  | String c rest =>
      if Ascii.eqb c CR then
        match rest with
        | String c' rest' =>
            if Ascii.eqb c' LF then String LF (universal_newlines rest')
            else String LF (universal_newlines rest)
        | EmptyString => String LF EmptyString
        end
      else String c (universal_newlines rest)
  end.

Fixpoint has_cr (s : string) : bool :=
  match s with
  | EmptyString => false
  | String c rest => Ascii.eqb c CR || has_cr rest
  end.

(** A path with a separator names a file that is not in the cache
    directory itself. *)
Fixpoint has_separator (s : string) : bool :=
  match s with
  | EmptyString => false
  | String c rest => Ascii.eqb c "/"%char || has_separator rest
  end.

(** [d[k]] on the dict parsed from the members: the last member wins. *)
Fixpoint dict_get (k : string) (members : list (string * json)) : option json :=
  match members with
  | [] => None
  | (k', v) :: rest =>
      match dict_get k rest with
      | Some v' => Some v'
      | None => if String.eqb k k' then Some v else None
      end
  end.

Definition dict_has (k : string) (members : list (string * json)) : bool :=
  match dict_get k members with
  | Some _ => true
  | None => false
  end.

(** The keys of the parsed dict, in order of first insertion. *)
Fixpoint dict_keys_acc (seen : list string) (members : list (string * json))
  : list string :=
  match members with
  | [] => []
  | (k, _) :: rest =>
      if existsb (String.eqb k) seen then dict_keys_acc seen rest
      else k :: dict_keys_acc (k :: seen) rest
  end.

Definition dict_keys (members : list (string * json)) : list string :=
  dict_keys_acc [] members.

Definition is_substring (s t : string) : bool :=
  match String.index 0 s t with
  | Some _ => true
  | None => false
  end.

Definition is_str (s : string) (v : json) : bool :=
  match v with
  | JStr s' => String.eqb s s'
  | _ => false
  end.

(** [s in v] for a string [s]: key test on a dict, substring test on a
    string, element test on a list, [TypeError] otherwise. *)
Definition py_contains (s : string) (v : json) : result bool :=
  match v with
  | JObj members => Ok (dict_has s members)
  | JStr t => Ok (is_substring s t)
  | JArr items => Ok (existsb (is_str s) items)
  | JNull | JBool _ | JNum _ => Raise TypeError
  end.

(** [v[s]] for a string [s]. *)
Definition py_getitem (v : json) (s : string) : result json :=
  match v with
  | JObj members =>
      match dict_get s members with
      | Some x => Ok x
      | None => Raise KeyError
      end
  | _ => Raise TypeError
  end.

(** The characters of a string, as Python iterates over a [str]. *)
Fixpoint chars (s : string) : list json :=
  match s with
  | EmptyString => []
  | String c rest => JStr (String c EmptyString) :: chars rest
  end.

(** An element of the sequence given to [dict.update], converted to a
    sequence itself. *)
Definition seq_of_item (item : json) : result (list json) :=
  match item with
  | JArr l => Ok l
  | JStr s => Ok (chars s)
  | JObj members => Ok (map JStr (dict_keys members))
  | JNull | JBool _ | JNum _ => Raise TypeError
  end.

(** [dict.update] from an iterable of pairs.  The dict is mutated pair by
    pair: when an element is rejected, the pairs before it stay. *)
Fixpoint merge_from_seq2 (d : registry) (items : list json)
  : registry * option exn :=
  match items with
  | [] => (d, None)
  | item :: rest =>
      match seq_of_item item with
      | Raise e => (d, Some e)
      | Ok [k; v] =>
          match hashable k with
          | Some key => merge_from_seq2 (<[key := v]> d) rest
          | None => (d, Some TypeError)
          end
      | Ok _ => (d, Some ValueError)
      end
  end.

Definition dict_merge (d : registry) (members : list (string * json)) : registry :=
  foldl (fun m kv => <[KStr kv.1 := kv.2]> m) d members.

(** [d.update(other)]: the dict after the call, and the exception raised
    by it, if any. *)
Definition dict_update (d : registry) (other : json) : registry * option exn :=
  match other with
  | JObj members => (dict_merge d members, None)
  | JArr items => merge_from_seq2 d items
  | JStr s => merge_from_seq2 d (chars s)
  | JNull | JBool _ | JNum _ => (d, Some TypeError)
  end.

(** ** The world *)

(** What [requests.get(REMOTE_REGISTRY_URL)] answers: an exception, or a
    response with its status and what [response.json()] gives ([None]
    when decoding raises [ValueError]). *)
Inductive registry_reply : Type :=
| RegistryRequestFailed
| RegistryHttp (status : Z) (body : option json).

(** What [requests.get(url)] answers for a content download. *)
Inductive reply : Type :=
| RequestFailed
| Http (status : Z) (text : string).

(** A file of the cache directory: the text that [read_text] reads from
    it, or a file whose read raises [OSError], or one whose bytes are not
    UTF-8. *)
Inductive cache_file : Type :=
| CacheText (s : string)
| CacheOSError
| CacheBadUtf8.

(** The answer to [typer.confirm]; [Aborted] is end of input or Ctrl-C. *)
Inductive answer : Type :=
| Confirmed
| Declined
| Aborted.

Inductive message : Type :=
| MsgEitherNotBoth
| MsgProvideNameOrUrl
| MsgDownloadingFromUrl
| MsgFailedToDownload
| MsgInstalledFromUrl
| MsgTemplateNotFound (name : string)
| MsgAvailable (keys : gset pykey)
| MsgLoadedFromCache (display : json)
| MsgFetching (display : json)
| MsgNetworkErrorUsingCached
| MsgFailedToDownloadTemplate
| MsgInitialized (display : string)
| MsgShowLoadedFromCache
| MsgFetchingPreview (display : json)
| MsgFailedToFetchPreview
| MsgPanel (content : string) (display : json)
| MsgExistsWarning
| MsgCancelled
| MsgWriteError.

Inductive event : Type :=
| EvGet (url : string)
| EvCacheExists (path : string)
| EvCacheRead (path : string)
| EvCacheMkdir
| EvCacheWrite (path : string) (content : string)
| EvDestExists
| EvConfirm
| EvDestWrite (content : string)
| EvPrint (m : message).

(** The world of one command: what the network answers, what the user
    answers, which file operations succeed ([cache_dir_ok]: the
    [mkdir] of the cache directory; [cache_write_ok]: the write of a
    cache file; [dest_write_ok]: the write of the destination file),
    which texts the markup parser of [rich] accepts, the files of the
    cache directory, the destination file and the log. *)
Record world : Type := World {
  registry_response : registry_reply;
  net : string -> reply;
  confirm_answer : answer;
  cache_write_ok : bool;
  dest_write_ok : bool;
  cache_dir_ok : bool;
  markup_ok : string -> bool;
  cache : gmap string cache_file;
  dest : option string;
  log : list event
}.

Definition add_event (e : event) (w : world) : world :=
  World (registry_response w) (net w) (confirm_answer w) (cache_write_ok w)
        (dest_write_ok w) (cache_dir_ok w) (markup_ok w) (cache w) (dest w) (log w ++ [e]).

Definition add_events (es : list event) (w : world) : world :=
  World (registry_response w) (net w) (confirm_answer w) (cache_write_ok w)
        (dest_write_ok w) (cache_dir_ok w) (markup_ok w) (cache w) (dest w) (log w ++ es).

Definition set_cache (c : gmap string cache_file) (w : world) : world :=
  World (registry_response w) (net w) (confirm_answer w) (cache_write_ok w)
        (dest_write_ok w) (cache_dir_ok w) (markup_ok w) c (dest w) (log w).

Definition set_dest (d : option string) (w : world) : world :=
  World (registry_response w) (net w) (confirm_answer w) (cache_write_ok w)
        (dest_write_ok w) (cache_dir_ok w) (markup_ok w) (cache w) d (log w).

(** ** The monad of commands *)

Definition M (A : Type) : Type := world -> result A * world.

Definition ret {A} (a : A) : M A := fun w => (Ok a, w).

Definition raise {A} (e : exn) : M A := fun w => (Raise e, w).

Definition bind {A B} (m : M A) (k : A -> M B) : M B :=
  fun w =>
    match m w with
    | (Ok a, w') => k a w'
    | (Raise e, w') => (Raise e, w')
    end.

Definition lift {A} (r : result A) : M A := fun w => (r, w).

(** [try: m except <handles>: h] *)
Definition try_except {A} (m : M A) (handles : exn -> bool) (h : M A) : M A :=
  fun w =>
    match m w with
    | (Ok a, w') => (Ok a, w')
    | (Raise e, w') => if handles e then h w' else (Raise e, w')
    end.

Definition emit (e : event) : M unit := fun w => (Ok tt, add_event e w).

(** [console.print] of one of the program's own messages.  Some of them
    carry a key or a display name of the registry, the text of an
    exception or a path: the model takes these to be free of markup that
    [rich] rejects, so that the call returns. *)
Definition console_print (m : message) : M unit := emit (EvPrint m).

(** [console.print] of a text that carries an argument of the user or
    the content of a template: [rich] parses the text as markup and
    raises [MarkupError] on a closing tag that closes nothing; nothing is
    printed then.  The parser is not part of the program: its verdict on
    the text is the world's [markup_ok]. *)
Definition console_print_markup (text : string) (m : message) : M unit :=
  fun w =>
    if markup_ok w text then (Ok tt, add_event (EvPrint m) w)
    else (Raise MarkupError, w).

Declare Scope cmd_scope.
Delimit Scope cmd_scope with cmd.
Notation "x <- m ;; k" := (bind m (fun x => k))
  (at level 100, m at next level, right associativity) : cmd_scope.
Notation "m ;; k" := (bind m (fun _ => k))
  (at level 100, right associativity) : cmd_scope.
Open Scope cmd_scope.

(** The exit status of the process for the outcome of a command: a
    return is 0, [typer.Exit(code)] is [code], anything else uncaught
    ends the process with status 1. *)
Definition exit_status {A} (r : result A) : Z :=
  match r with
  | Ok _ => 0
  | Raise (Exit code) => code
  | Raise _ => 1
  end.

(** ** Constants *)

Definition CURSORRULES_FILENAME : string := ".cursorrules".

Definition REMOTE_REGISTRY_URL : string :=
  "https://raw.githubusercontent.com/ThanhNguyxn/cursor-setup/main/rules.json".

(** ** File-system, network and terminal operations *)

(** [cache_path.exists()], on a cache directory that can be searched
    (the call answers). *)
Definition cache_exists (path : string) : M bool :=
  fun w =>
    (Ok (bool_decide (is_Some (cache w !! path))), add_event (EvCacheExists path) w).

(** [cache_path.read_text(encoding="utf-8")] *)
Definition cache_read_text (path : string) : M string :=
  fun w =>
    let w' := add_event (EvCacheRead path) w in
    match cache w !! path with
    | Some (CacheText s) => (Ok s, w')
    | Some CacheOSError => (Raise OSError, w')
    | Some CacheBadUtf8 => (Raise ValueError, w')
    | None => (Raise OSError, w')
    end.

(** [cache_path.write_text(content, encoding="utf-8")]: afterwards the
    file reads as the content with its line endings translated, or the
    write raises [OSError] and the cache directory is as before.  A path
    with a separator names a file that is not in the cache directory
    itself, in the plain case in a sub-directory, which nothing creates:
    the model, which keeps the files of the cache directory only, takes
    its write to raise [OSError]. *)
Definition cache_write_text (path content : string) : M unit :=
  fun w =>
    let w' := add_event (EvCacheWrite path content) w in
    if cache_write_ok w && negb (has_separator path)
    then (Ok tt,
          set_cache (<[path := CacheText (universal_newlines content)]> (cache w)) w')
    else (Raise OSError, w').

(** [cursorrules_path.exists()], in a current directory that can be
    searched (the call answers). *)
Definition dest_exists : M bool :=
  fun w => (Ok (bool_decide (is_Some (dest w))), add_event EvDestExists w).

(** [cursorrules_path.write_text(content, encoding="utf-8")]; a content
    that is not a [str] is rejected with [TypeError] before the file is
    opened. *)
Definition dest_write_text (content : json) : M unit :=
  match content with
  | JStr s =>
      fun w =>
        let w' := add_event (EvDestWrite s) w in
        if dest_write_ok w
        then (Ok tt, set_dest (Some s) w')
        else (Raise OSError, w')
  | _ => raise TypeError
  end.

(** [typer.confirm(..., default=False)] *)
Definition typer_confirm : M bool :=
  fun w =>
    let w' := add_event EvConfirm w in
    match confirm_answer w with
    | Confirmed => (Ok true, w')
    | Declined => (Ok false, w')
    | Aborted => (Raise Abort, w')
    end.

(** [response.raise_for_status()] raises for the 4xx and 5xx statuses. *)
Definition raises_for_status (status : Z) : bool :=
  (400 <=? status) && (status <? 600).

Definition is_OSError (e : exn) : bool :=
  match e with OSError => true | _ => false end.

Definition is_RequestException (e : exn) : bool :=
  match e with RequestException => true | _ => false end.

(** ** The cache store *)

(** [CACHE_DIR / f"{name}.cursorrules"], as a path relative to
    [CACHE_DIR]: a file of the cache directory when the name has no
    separator. *)
Definition get_cache_path (name : string) : string :=
  name +:+ ".cursorrules".

(** [CACHE_DIR.mkdir(parents=True, exist_ok=True)] *)
Definition ensure_cache_dir : M unit :=
  fun w =>
    let w' := add_event EvCacheMkdir w in
    if cache_dir_ok w then (Ok tt, w') else (Raise OSError, w').

Definition load_from_cache (name : string) : M (option string) :=
  let cache_path := get_cache_path name in
  ex <- cache_exists cache_path ;;
  if ex then
    try_except
      (s <- cache_read_text cache_path ;; ret (Some s))
      is_OSError
      (ret None)
  else ret None.

Definition save_to_cache (name content : string) : M unit :=
  try_except
    (ensure_cache_dir ;;
     let cache_path := get_cache_path name in
     cache_write_text cache_path content)
    is_OSError
    (ret tt).

(** ** The registry merger *)

(** The body of the [try] of [get_registry]: [all_templates] when the
    block is left, and the exception that left it, if any. *)
Definition get_registry_try (all_templates : registry) (r : registry_reply)
  : registry * option exn :=
  match r with
  | RegistryRequestFailed => (all_templates, Some RequestException)
  | RegistryHttp status body =>
      if raises_for_status status then (all_templates, Some RequestException)
      else
        match body with
        | None => (all_templates, Some ValueError)
        | Some data =>
            match data with
            | JObj members =>
                if dict_has "templates" members then
                  match py_getitem data "templates" with
                  | Ok remote_templates => dict_update all_templates remote_templates
                  | Raise e => (all_templates, Some e)
                  end
                else (all_templates, None)
            | _ => (all_templates, None)
            end
        end
  end.

Definition get_registry_handles (e : exn) : bool :=
  match e with
  | RequestException | ValueError | KeyError => true
  | _ => false
  end.

Section Commands.

(** The bundled templates of [cursor_setup/templates.py]. *)
Variable TEMPLATES : registry.

Definition get_registry : M registry :=
  fun w =>
    let w' := add_event (EvGet REMOTE_REGISTRY_URL) w in
    match get_registry_try TEMPLATES (registry_response w) with
    | (all_templates, None) => (Ok all_templates, w')
    | (all_templates, Some e) =>
        if get_registry_handles e then (Ok all_templates, w')
        else (Raise e, w')
    end.

(** ** The download *)

(** [requests.get] turns a URL that is not a string into its [str],
    which has no scheme: the call raises before any request is made. *)
Definition download_from_url (url : json) : M string :=
  match url with
  | JStr u =>
      fun w =>
        let w' := add_event (EvGet u) w in
        match net w u with
        | RequestFailed => (Raise RequestException, w')
        | Http status text =>
            if raises_for_status status then (Raise RequestException, w')
            else (Ok text, w')
        end
  | _ => raise RequestException
  end.

(** ** The installer *)

Definition write_cursorrules (content : json) (force : bool) : M unit :=
  ex <- dest_exists ;;
  (if ex && negb force then
     console_print MsgExistsWarning ;;
     overwrite <- typer_confirm ;;
     if negb overwrite then
       console_print MsgCancelled ;;
       raise (Exit 0)
     else ret tt
   else ret tt) ;;
  try_except
    (dest_write_text content)
    is_OSError
    (console_print MsgWriteError ;; raise (Exit 1)).

(** ** The commands *)

Definition key_kind (k : pykey) : nat :=
  match k with
  | KNone => 0%nat
  | KInt _ => 1%nat
  | KStr _ => 2%nat
  end.

(** [sorted(all_templates.keys())] compares the keys: it raises
    [TypeError] when two of them are of different kinds. *)
Definition sortable (keys : list pykey) : bool :=
  match keys with
  | [] => true
  | k :: rest => forallb (fun k' => Nat.eqb (key_kind k) (key_kind k')) rest
  end.

Definition sorted_keys (all_templates : registry) : result (gset pykey) :=
  if sortable (elements (dom all_templates)) then Ok (dom all_templates)
  else Raise TypeError.

(** The text of the "not found" message, with the user's argument in
    it. *)
Definition not_found_markup (name : string) : string :=
  String LF "[red]❌ Error:[/red] Template '[bold]" +:+ name
  +:+ "[/bold]' not found." +:+ String LF "".

Definition template_not_found (name : string) (all_templates : registry) : M unit :=
  console_print_markup (not_found_markup name) (MsgTemplateNotFound name) ;;
  keys <- lift (sorted_keys all_templates) ;;
  console_print (MsgAvailable keys) ;;
  raise (Exit 1).

(** [Text.append] accepts a [str] only. *)
Definition text_append (v : json) : M string :=
  match v with
  | JStr s => ret s
  | _ => raise TypeError
  end.

(** [install], URL installation mode (the branch [if url:]). *)
Definition install_from_url (url : string) (force : bool) : M unit :=
  console_print MsgDownloadingFromUrl ;;
  content <-
    try_except
      (download_from_url (JStr url))
      is_RequestException
      (console_print MsgFailedToDownload ;; raise (Exit 1)) ;;
  write_cursorrules (JStr content) force ;;
  console_print MsgInstalledFromUrl.

(** [install], the success message of the template name mode. *)
Definition install_success (template : json) : M unit :=
  display <- lift (py_getitem template "name") ;;
  display <- text_append display ;;
  console_print (MsgInitialized display).

(** [install], template name installation mode. *)
Definition install_by_name (name : string) (force no_cache : bool) : M unit :=
  all_templates <- get_registry ;;
  match all_templates !! KStr name with
  | None => template_not_found name all_templates
  | Some template =>
      has_url <- lift (py_contains "url" template) ;;
      content <-
        (if has_url : bool then
           content <-
             (if negb no_cache then
                cached_content <- load_from_cache name ;;
                match if_truthy cached_content with
                | Some c =>
                    display <- lift (py_getitem template "name") ;;
                    console_print (MsgLoadedFromCache display) ;;
                    ret (Some c)
                | None => ret None
                end
              else ret None) ;;
           match content with
           | Some c => ret (JStr c)
           | None =>
               display <- lift (py_getitem template "name") ;;
               console_print (MsgFetching display) ;;
               try_except
                 (url <- lift (py_getitem template "url") ;;
                  content <- download_from_url url ;;
                  save_to_cache name content ;;
                  ret (JStr content))
                 is_RequestException
                 (cached_content <- load_from_cache name ;;
                  match if_truthy cached_content with
                  | Some c =>
                      console_print MsgNetworkErrorUsingCached ;;
                      ret (JStr c)
                  | None =>
                      console_print MsgFailedToDownloadTemplate ;;
                      raise (Exit 1)
                  end)
           end
         else lift (py_getitem template "content")) ;;
      write_cursorrules content force ;;
      install_success template
  end.

(** After the two validations exactly one of [url] and [name] is a
    non-empty string. *)
Definition install (name url : option string) (force no_cache : bool) : M unit :=
  if truthy_opt url && truthy_opt name then
    console_print MsgEitherNotBoth ;;
    raise (Exit 1)
  else if negb (truthy_opt url) && negb (truthy_opt name) then
    console_print MsgProvideNameOrUrl ;;
    raise (Exit 1)
  else
    match if_truthy url with
    | Some u => install_from_url u force
    | None => install_by_name (default "" name) force no_cache
    end.

Definition show (name : string) : M unit :=
  all_templates <- get_registry ;;
  match all_templates !! KStr name with
  | None => template_not_found name all_templates
  | Some template =>
      has_url <- lift (py_contains "url" template) ;;
      content <-
        (if has_url : bool then
           cached_content <- load_from_cache name ;;
           match if_truthy cached_content with
           | Some c =>
               console_print MsgShowLoadedFromCache ;;
               ret (JStr c)
           | None =>
               display <- lift (py_getitem template "name") ;;
               console_print (MsgFetchingPreview display) ;;
               try_except
                 (url <- lift (py_getitem template "url") ;;
                  content <- download_from_url url ;;
                  save_to_cache name content ;;
                  ret (JStr content))
                 is_RequestException
                 (console_print MsgFailedToFetchPreview ;; raise (Exit 1))
           end
         else lift (py_getitem template "content")) ;;
      display <- lift (py_getitem template "name") ;;
      match content with
      | JStr s => console_print_markup s (MsgPanel s display)
      | _ => raise NotRenderableError
      end
  end.

End Commands.

Arguments get_registry TEMPLATES w : rename.

(** ** Observations on a run *)

(** The events that a run from [w] to [w'] has appended to the log. *)
Definition events_since (w w' : world) : list event :=
  drop (length (log w)) (log w').
#[global] Arguments events_since : simpl never.

Definition is_fetch (e : event) : bool :=
  match e with
  | EvGet _ => true
  | _ => false
  end.

Definition is_cache_access (e : event) : bool :=
  match e with
  | EvCacheExists _ | EvCacheRead _ | EvCacheMkdir | EvCacheWrite _ _ => true
  | _ => false
  end.

Definition is_dest_write (e : event) : bool :=
  match e with
  | EvDestWrite _ => true
  | _ => false
  end.

Definition is_installer_event (e : event) : bool :=
  match e with
  | EvDestExists | EvConfirm | EvDestWrite _ | EvPrint _ => true
  | _ => false
  end.

(** What [download_from_url url] returns in [w]: the text, or [None]
    when it raises [RequestException]. *)
Definition fetch_result (w : world) (url : json) : option string :=
  match url with
  | JStr u =>
      match net w u with
      | RequestFailed => None
      | Http status text => if raises_for_status status then None else Some text
      end
  | _ => None
  end.

(** The request that [download_from_url url] makes. *)
Definition fetch_events (url : json) : list event :=
  match url with
  | JStr u => [EvGet u]
  | _ => []
  end.

(** A descriptor that [install] and [show] treat as remote: ["url" in
    template] holds, [template["name"]] and [template["url"]] evaluate. *)
Definition remote_descriptor (template display url : json) : Prop :=
  py_contains "url" template = Ok true /\
  py_getitem template "name" = Ok display /\
  py_getitem template "url" = Ok url.

(** A descriptor with inline content: a dict without the key ["url"]
    whose ["content"] is the string [text]. *)
Definition inline_descriptor (template : json) (text : string) : Prop :=
  py_contains "url" template = Ok false /\
  py_getitem template "content" = Ok (JStr text).

(** The values of ["templates"] from which [dict.update] takes nothing,
    and which it accepts or rejects with [ValueError]: a string, an empty
    array, an array whose first element is a sequence of a length other
    than two. *)
Definition overlays_nothing (remote_templates : json) : bool :=
  match remote_templates with
  | JStr _ => true
  | JArr [] => true
  | JArr (item :: _) =>
      match seq_of_item item with
      | Ok [_; _] => false
      | Ok _ => true
      | Raise _ => false
      end
  | _ => false
  end.

(** The remote answers that leave nothing of the remote document in the
    registry without an error coming out: request error, 4xx or 5xx
    status, undecodable body, a body that is not an object, an object
    without ["templates"], or one whose ["templates"] gives [dict.update]
    nothing to take. *)
Definition remote_unavailable (r : registry_reply) : bool :=
  match r with
  | RegistryRequestFailed => true
  | RegistryHttp status body =>
      raises_for_status status ||
      match body with
      | None => true
      | Some (JObj members) =>
          match dict_get "templates" members with
          | None => true
          | Some remote_templates => overlays_nothing remote_templates
          end
      | Some _ => true
      end
  end.

(** ** Invariants of runs *)

(** The part of the world that no operation changes. *)
Definition same_env (w w' : world) : Prop :=
  registry_response w' = registry_response w /\
  net w' = net w /\
  confirm_answer w' = confirm_answer w /\
  cache_write_ok w' = cache_write_ok w /\
  dest_write_ok w' = dest_write_ok w /\
  cache_dir_ok w' = cache_dir_ok w /\
  markup_ok w' = markup_ok w.

(** The run from [w] to [w'] has logged events of kind [P] only. *)
Definition only (P : event -> bool) (w w' : world) : Prop :=
  exists evs, log w' = log w ++ evs /\ forallb P evs = true.

(** Neither the prompt nor a write of the destination file. *)
Definition quiet (e : event) : bool :=
  match e with
  | EvConfirm | EvDestWrite _ => false
  | _ => true
  end.

(** A step that leaves the destination file alone. *)
Definition quiet_step (w w' : world) : Prop :=
  same_env w w' /\ dest w' = dest w /\ only quiet w w'.

(** A step of the installer: the cache and the network are left alone. *)
Definition installer_step (w w' : world) : Prop :=
  same_env w w' /\ cache w' = cache w /\ only is_installer_event w w'.

(** [m] relates every world to the world it leaves. *)
Definition run_inv {A} (I : world -> world -> Prop) (m : M A) : Prop :=
  forall w, I w (m w).2.

(** ** Overwrite protection along a whole command *)

Definition is_confirm (e : event) : bool :=
  match e with
  | EvConfirm => true
  | _ => false
  end.

(** Every write of the destination file in [evs] comes after a
    confirmation prompt ([asked] tells whether one came before [evs]). *)
Fixpoint asked_before_write_from (asked : bool) (evs : list event) : bool :=
  match evs with
  | [] => true
  | EvConfirm :: rest => asked_before_write_from true rest
  | EvDestWrite _ :: rest => asked && asked_before_write_from asked rest
  | _ :: rest => asked_before_write_from asked rest
  end.

Definition asked_before_write (evs : list event) : bool :=
  asked_before_write_from false evs.

(** What a command that started in [w0], where the destination file
    exists, owes to the user: the file is written only after the prompt,
    and when the answer is "no" the file is as before, no write was
    attempted and, once the prompt was reached, the outcome is
    [typer.Exit(code=0)]. *)
Definition protects (w0 : world) (rw : result unit * world) : Prop :=
  let evs := events_since w0 rw.2 in
  asked_before_write evs = true /\
  (confirm_answer w0 = Declined ->
     dest rw.2 = dest w0 /\
     List.filter is_dest_write evs = [] /\
     (existsb is_confirm evs = true -> rw.1 = Raise (Exit 0))).

Definition guarded_cmd (m : M unit) : Prop :=
  forall w0 old w1,
    dest w0 = Some old -> quiet_step w0 w1 -> protects w0 (m w1).

(** Nothing stands in the way of the write: no file yet, or [force], or
    the user agrees. *)
Definition goes_ahead (force : bool) (w : world) : bool :=
  negb (bool_decide (is_Some (dest w))) || force ||
  match confirm_answer w with
  | Confirmed => true
  | _ => false
  end.

(** ** The course of a name-based resolution *)

(** The rest of [install] once the content is known: the write and the
    success message. *)
Definition install_with (template : json) (content : string) (force : bool)
  : M unit :=
  write_cursorrules (JStr content) force ;; install_success template.

(** Whether [save_to_cache] stores the file of [name] in [w]: the
    [mkdir] and the write succeed and the key has no path separator. *)
Definition save_succeeds (w : world) (name : string) : bool :=
  cache_dir_ok w && cache_write_ok w && negb (has_separator name).

(** The events of [save_to_cache]: the write is attempted when the
    [mkdir] has succeeded. *)
Definition save_events (w : world) (name content : string) : list event :=
  if cache_dir_ok w
  then [EvCacheMkdir; EvCacheWrite (get_cache_path name) content]
  else [EvCacheMkdir].

(** What the two tests [if cached_content:] see in [w]: the events of
    [load_from_cache], and whether it comes back without a usable text. *)
Definition cache_probe_events (w : world) (name : string) : list event :=
  match cache w !! get_cache_path name with
  | None => [EvCacheExists (get_cache_path name)]
  | Some _ => [EvCacheExists (get_cache_path name);
               EvCacheRead (get_cache_path name)]
  end.

Definition cache_misses (w : world) (name : string) : bool :=
  match cache w !! get_cache_path name with
  | None => true
  | Some (CacheText s) => negb (truthy s)
  | Some CacheOSError => true
  | Some CacheBadUtf8 => false
  end.

(** The events of [install] up to the request for the content. *)
Definition fetch_prefix (no_cache : bool) (w : world) (name : string)
    (display url : json) : list event :=
  [EvGet REMOTE_REGISTRY_URL]
  ++ (if no_cache then [] else cache_probe_events w name)
  ++ [EvPrint (MsgFetching display)]
  ++ fetch_events url.

(** The events of [show] up to the request for the content. *)
Definition show_prefix (w : world) (name : string) (display url : json)
  : list event :=
  [EvGet REMOTE_REGISTRY_URL]
  ++ cache_probe_events w name
  ++ [EvPrint (MsgFetchingPreview display)]
  ++ fetch_events url.

(** The events of an [install] that ends up with the cached text: the
    fast path without [--no-cache], the fallback after the failed request
    with it. *)
Definition cached_events (no_cache : bool) (w : world) (name : string)
    (display url : json) : list event :=
  if no_cache then
    fetch_prefix true w name display url
    ++ [EvCacheExists (get_cache_path name);
        EvCacheRead (get_cache_path name);
        EvPrint MsgNetworkErrorUsingCached]
  else
    [EvGet REMOTE_REGISTRY_URL;
     EvCacheExists (get_cache_path name);
     EvCacheRead (get_cache_path name);
     EvPrint (MsgLoadedFromCache display)].

(** ** Sample data *)

Definition sample_TEMPLATES : registry :=
  {[ KStr "python" :=
       JObj [("name", JStr "Python"); ("description", JStr "Python rules");
             ("content", JStr "# Python rules")] ]}.

Definition sample_react : json :=
  JObj [("name", JStr "React"); ("description", JStr "React rules");
        ("url", JStr "https://example.com/react.txt")].

Definition sample_remote : json :=
  JObj [("templates", JObj [("react", sample_react)])].

Definition offline (_ : string) : reply := RequestFailed.

(** A markup parser that refuses the closing tag [[/api]], which closes
    nothing in the texts of the samples. *)
Definition sample_markup (text : string) : bool :=
  negb (is_substring "[/api]" text).

Definition online (_ : string) : reply := Http 200 "# React rules v1".

(** An empty cache, no destination file, the remote registry reachable,
    the content URLs not. *)
Definition sample_world : world :=
  World (RegistryHttp 200 (Some sample_remote)) offline Declined true true true sample_markup
        ∅ None [].

(** A world where the destination file exists and the user answers "no". *)
Definition sample_existing : world :=
  World (RegistryHttp 200 (Some sample_remote)) online Declined true true true sample_markup
        ∅ (Some "# my own rules") [].

Definition sample_unavailable : world :=
  World (RegistryHttp 503 None) offline Declined true true true sample_markup ∅ None [].

(** A remote document whose ["templates"] maps a key to a number, and one
    whose ["templates"] is [null]. *)
Definition sample_bad_descriptor : world :=
  World (RegistryHttp 200 (Some (JObj [("templates", JObj [("python", JNum 7)])])))
        offline Declined true true true sample_markup ∅ None [].

Definition sample_null_templates : world :=
  World (RegistryHttp 200 (Some (JObj [("templates", JNull)])))
        offline Declined true true true sample_markup ∅ None [].

Definition sample_url : string := "https://example.com/react.txt".

(** The registry that [get_registry] returns in the sample worlds. *)
Definition sample_merged : registry :=
  dict_merge sample_TEMPLATES [("react", sample_react)].

(** The cache holds an earlier download of [react]; the content is out
    of reach. *)
Definition sample_cached : world :=
  World (RegistryHttp 200 (Some sample_remote)) offline Declined true true true sample_markup
        {[ "react.cursorrules" := CacheText "# React rules v1" ]} None [].

(** The cache file of [react] exists and is empty. *)
Definition sample_empty_entry (network : string -> reply) : world :=
  World (RegistryHttp 200 (Some sample_remote)) network Declined true true true sample_markup
        {[ "react.cursorrules" := CacheText "" ]} None [].

(** Everything reachable, nothing cached yet. *)
Definition sample_online : world :=
  World (RegistryHttp 200 (Some sample_remote)) online Declined true true true sample_markup
        ∅ None [].

(** As [sample_online], with a cache directory that cannot be written. *)
Definition sample_readonly_cache : world :=
  World (RegistryHttp 200 (Some sample_remote)) online Declined false true true sample_markup
        ∅ None [].

(** ** Exceptions that a command lets out *)

(** Every exception that [m] raises is one of [S]. *)
Definition raises_in {A} (S : exn -> bool) (m : M A) : Prop :=
  forall w e, (m w).1 = Raise e -> S e = true.

(** Anything but [typer.Exit(code=0)]. *)
Definition not_exit_zero (e : exn) : bool :=
  match e with
  | Exit code => negb (code =? 0)
  | _ => true
  end.

(** What [install] can end with, apart from returning: never an
    exception of [requests], and [typer.Exit] with code 0 or 1 only. *)
Definition install_exception (e : exn) : bool :=
  match e with
  | RequestException => false
  | Exit code => (code =? 0) || (code =? 1)
  | _ => true
  end.

Definition no_exception (_ : exn) : bool := false.

Definition is_ValueError (e : exn) : bool :=
  match e with
  | ValueError => true
  | _ => false
  end.

Definition is_MarkupError (e : exn) : bool :=
  match e with
  | MarkupError => true
  | _ => false
  end.

(** What a subscript [v[s]] can raise. *)
Definition is_lookup_error (e : exn) : bool :=
  match e with
  | KeyError | TypeError => true
  | _ => false
  end.

(** What [write_cursorrules] can raise. *)
Definition installer_exception (e : exn) : bool :=
  match e with
  | Exit code => (code =? 0) || (code =? 1)
  | Abort | TypeError => true
  | _ => false
  end.

(** What the [try] block around a download can raise. *)
Definition fetch_exception (e : exn) : bool :=
  is_RequestException e || is_lookup_error e.

(** The exceptions of the part of [install] that finds the content of a
    template: no [typer.Exit(code=0)], no [RequestException]. *)
Definition resolve_exception (e : exn) : bool :=
  match e with
  | ValueError | KeyError | TypeError | MarkupError => true
  | Exit code => code =? 1
  | _ => false
  end.

(** What [get_registry] can raise. *)
Definition is_TypeError (e : exn) : bool :=
  match e with
  | TypeError => true
  | _ => false
  end.

(** ** More invariants of runs *)

(** An operation on the destination file, the prompt included. *)
Definition is_dest_event (e : event) : bool :=
  match e with
  | EvDestExists | EvConfirm | EvDestWrite _ => true
  | _ => false
  end.

Definition not_dest_event (e : event) : bool := negb (is_dest_event e).

(** A step that does not even look at the destination file. *)
Definition dest_untouched_step (w w' : world) : Prop :=
  same_env w w' /\ dest w' = dest w /\ only not_dest_event w w'.

Definition not_confirm (e : event) : bool := negb (is_confirm e).

(** A step without a confirmation prompt. *)
Definition unprompted_step (w w' : world) : Prop := only not_confirm w w'.

(** No content can be downloaded in [w]: every request fails or comes
    back with a 4xx or 5xx status. *)
Definition unreachable (w : world) : Prop :=
  forall u, fetch_result w (JStr u) = None.

(** A step that leaves the cache as it is when nothing can be
    downloaded. *)
Definition offline_step (w w' : world) : Prop :=
  same_env w w' /\ (unreachable w -> cache w' = cache w).

(** How a command that started in [w0] may end: it returns only after a
    successful write, which left its text in the destination file; it
    ends with [typer.Exit(code=0)] only after the user declined the
    prompt, the file being as it was. *)
Definition honest_outcome (w0 : world) (rw : result unit * world) : Prop :=
  (rw.1 = Ok tt ->
   exists c, dest rw.2 = Some c /\ In (EvDestWrite c) (events_since w0 rw.2)) /\
  (rw.1 = Raise (Exit 0) ->
   confirm_answer w0 = Declined /\
   dest rw.2 = dest w0 /\
   existsb is_confirm (events_since w0 rw.2) = true).

Definition honest_cmd (m : M unit) : Prop :=
  forall w0 w1, quiet_step w0 w1 -> honest_outcome w0 (m w1).

(** All the keys of a registry are strings. *)
Definition string_keys (reg : registry) : Prop :=
  forall k, is_Some (reg !! k) -> exists s, k = KStr s.

(** The cache file of [react] is not valid UTF-8. *)
Definition sample_undecodable : world :=
  World (RegistryHttp 200 (Some sample_remote)) online Declined true true true sample_markup
        {[ "react.cursorrules" := CacheBadUtf8 ]} None [].

(** Every download answers 200 with an empty body. *)
Definition empty_body (_ : string) : reply := Http 200 "".

(** ** The [list] command *)

(** The order in which [sorted] puts two keys of the same kind: strings
    by code point (which is the order of their UTF-8 bytes), numbers by
    value.  Keys of different kinds are never compared ([sorted] raises
    [TypeError] first, see [sortable]); they are put by kind to make the
    order total. *)
Definition pykey_leb (a b : pykey) : bool :=
  match a, b with
  | KStr s, KStr t => String.leb s t
  | KInt x, KInt y => x <=? y
  | _, _ => Nat.leb (key_kind a) (key_kind b)
  end.

(** [(k1, t1) <= (k2, t2)] on the items of a dict: the keys differ, so
    the keys decide. *)
Definition item_le (a b : pykey * json) : Prop := pykey_leb a.1 b.1 = true.

#[global] Instance item_le_dec a b : Decision (item_le a b).
Proof. unfold item_le. apply _. Defined.

(** [sorted(all_templates.items())] *)
Definition sorted_items (all_templates : registry)
  : result (list (pykey * json)) :=
  if sortable (elements (dom all_templates))
  then Ok (merge_sort item_le (map_to_list all_templates))
  else Raise TypeError.

(** A row of the table: template key, name, description. *)
Definition row : Type := string * string * string.

(** What [Table.add_row] makes of a cell: a string is taken as it is,
    [None] becomes the empty string, anything else is refused. *)
Definition table_cell (v : json) : result string :=
  match v with
  | JStr s => Ok s
  | JNull => Ok ""
  | _ => Raise NotRenderableError
  end.

Definition key_cell (k : pykey) : result string :=
  match k with
  | KStr s => Ok s
  | KNone => Ok ""
  | KInt _ => Raise NotRenderableError
  end.

(** [table.add_row(key, template["name"], template["description"])]:
    the two subscripts are evaluated first, then the cells are checked
    from left to right. *)
Definition add_row (item : pykey * json) : result row :=
  match py_getitem item.2 "name" with
  | Raise e => Raise e
  | Ok name =>
      match py_getitem item.2 "description" with
      | Raise e => Raise e
      | Ok description =>
          match key_cell item.1 with
          | Raise e => Raise e
          | Ok k =>
              match table_cell name with
              | Raise e => Raise e
              | Ok n =>
                  match table_cell description with
                  | Raise e => Raise e
                  | Ok d => Ok (k, n, d)
                  end
              end
          end
      end
  end.

(** The loop over the sorted items. *)
Fixpoint table_rows (items : list (pykey * json)) : result (list row) :=
  match items with
  | [] => Ok []
  | item :: rest =>
      match add_row item with
      | Raise e => Raise e
      | Ok r =>
          match table_rows rest with
          | Raise e => Raise e
          | Ok rows => Ok (r :: rows)
          end
      end
  end.

(** The command [list]: the value is the rows of the table that it
    prints (the rendering of the table and the two usage lines are not
    modelled). *)
Definition list_templates (TEMPLATES : registry) : M (list row) :=
  all_templates <- get_registry TEMPLATES ;;
  items <- lift (sorted_items all_templates) ;;
  lift (table_rows items).

(** A registry that [list] can show: string keys, and descriptors whose
    ["name"] and ["description"] are strings. *)
Definition listable (reg : registry) : Prop :=
  forall k t, reg !! k = Some t ->
    exists s n d,
      k = KStr s /\
      py_getitem t "name" = Ok (JStr n) /\
      py_getitem t "description" = Ok (JStr d).

(** The rows come in ascending order of their keys. *)
Definition row_le (a b : row) : Prop := String.leb a.1.1 b.1.1 = true.

(** ** Running the operations *)

Lemma add_events_app es es' w :
  add_events es' (add_events es w) = add_events (es ++ es') w.
Proof. unfold add_events; simpl. by rewrite <- app_assoc. Qed.

Lemma add_event_events e w : add_event e w = add_events [e] w.
Proof. reflexivity. Qed.

Lemma add_events_nil w : add_events [] w = w.
Proof. destruct w; unfold add_events; simpl. by rewrite app_nil_r. Qed.

Lemma events_since_add es w : events_since w (add_events es w) = es.
Proof. unfold events_since; simpl. by rewrite drop_app_length. Qed.

Lemma events_since_set_dest d es w :
  events_since w (set_dest d (add_events es w)) = es.
Proof. unfold events_since; simpl. by rewrite drop_app_length. Qed.

Lemma events_since_set_cache c es w :
  events_since w (set_cache c (add_events es w)) = es.
Proof. unfold events_since; simpl. by rewrite drop_app_length. Qed.

Ltac world_eq :=
  unfold add_events, add_event, set_cache, set_dest; simpl;
  rewrite <- ?app_assoc; simpl; try reflexivity.

Lemma bind_ok {A B} (m : M A) (k : A -> M B) w a w' :
  m w = (Ok a, w') -> bind m k w = k a w'.
Proof. unfold bind; by intros ->. Qed.

Lemma bind_raise {A B} (m : M A) (k : A -> M B) w e w' :
  m w = (Raise e, w') -> bind m k w = (Raise e, w').
Proof. unfold bind; by intros ->. Qed.

Lemma load_from_cache_text name s w :
  cache w !! get_cache_path name = Some (CacheText s) ->
  load_from_cache name w =
    (Ok (Some s),
     add_events [EvCacheExists (get_cache_path name);
                 EvCacheRead (get_cache_path name)] w).
Proof.
  intros H. unfold load_from_cache, bind, cache_exists, try_except, cache_read_text.
  simpl. rewrite H. simpl. rewrite H. unfold ret. simpl. world_eq.
Qed.

Lemma load_from_cache_absent name w :
  cache w !! get_cache_path name = None ->
  load_from_cache name w =
    (Ok None, add_events [EvCacheExists (get_cache_path name)] w).
Proof.
  intros H. unfold load_from_cache, bind, cache_exists. simpl. rewrite H.
  reflexivity.
Qed.

Lemma load_from_cache_oserror name w :
  cache w !! get_cache_path name = Some CacheOSError ->
  load_from_cache name w =
    (Ok None,
     add_events [EvCacheExists (get_cache_path name);
                 EvCacheRead (get_cache_path name)] w).
Proof.
  intros H. unfold load_from_cache, bind, cache_exists, try_except, cache_read_text.
  simpl. rewrite H. simpl. rewrite H. unfold ret. simpl. world_eq.
Qed.

Lemma universal_newlines_no_cr s :
  has_cr s = false -> universal_newlines s = s.
Proof.
  induction s as [|c s IH]; [done|]. simpl.
  destruct (Ascii.eqb c CR); [done|]. simpl. intros H. by rewrite IH.
Qed.

Lemma truthy_universal_newlines s :
  truthy (universal_newlines s) = truthy s.
Proof.
  destruct s as [|c s]; [done|]. simpl.
  destruct (Ascii.eqb c CR); [|done].
  destruct s as [|c' s]; [done|]. by destruct (Ascii.eqb c' LF).
Qed.

Lemma has_separator_app s t :
  has_separator (s +:+ t) = has_separator s || has_separator t.
Proof.
  induction s as [|c s IH]; simpl; [done|]. by rewrite IH, orb_assoc.
Qed.

Lemma has_separator_cache_path name :
  has_separator (get_cache_path name) = has_separator name.
Proof.
  unfold get_cache_path. rewrite has_separator_app. simpl.
  by rewrite orb_false_r.
Qed.

Lemma save_to_cache_ok name content w :
  save_succeeds w name = true ->
  save_to_cache name content w =
    (Ok tt,
     set_cache
       (<[get_cache_path name := CacheText (universal_newlines content)]> (cache w))
       (add_events [EvCacheMkdir; EvCacheWrite (get_cache_path name) content] w)).
Proof.
  unfold save_succeeds. intros [[Hd Hw]%andb_true_iff Hf]%andb_true_iff.
  unfold save_to_cache, try_except, bind, ensure_cache_dir, cache_write_text.
  simpl. rewrite Hd. simpl. rewrite Hw, has_separator_cache_path, Hf.
  unfold ret. simpl. world_eq.
Qed.

Lemma save_to_cache_failed name content w :
  save_succeeds w name = false ->
  save_to_cache name content w =
    (Ok tt, add_events (save_events w name content) w).
Proof.
  unfold save_succeeds, save_events. intros H.
  unfold save_to_cache, try_except, bind, ensure_cache_dir, cache_write_text.
  simpl. destruct (cache_dir_ok w); simpl; [|unfold ret; simpl; world_eq].
  rewrite has_separator_cache_path.
  simpl in H. rewrite H. unfold ret. simpl. world_eq.
Qed.

Lemma download_from_url_run url w :
  download_from_url url w =
    (match fetch_result w url with
     | Some text => Ok text
     | None => Raise RequestException
     end,
     add_events (fetch_events url) w).
Proof.
  destruct url; simpl; unfold raise; rewrite ?add_events_nil; try reflexivity.
  destruct (net w s) as [|status text]; [reflexivity|].
  destruct (raises_for_status status); reflexivity.
Qed.

Lemma get_registry_world T w :
  (get_registry T w).2 = add_events [EvGet REMOTE_REGISTRY_URL] w.
Proof.
  unfold get_registry.
  destruct (get_registry_try T (registry_response w)) as [reg [e|]]; [|reflexivity].
  destruct (get_registry_handles e); reflexivity.
Qed.

Lemma get_registry_run T w reg :
  (get_registry T w).1 = Ok reg ->
  get_registry T w = (Ok reg, add_events [EvGet REMOTE_REGISTRY_URL] w).
Proof.
  intros H. pose proof (get_registry_world T w) as Hw.
  destruct (get_registry T w) as [r w']. simpl in *. by subst.
Qed.

(** ** Invariants of runs: composition *)

Lemma same_env_refl w : same_env w w.
Proof. by repeat split. Qed.

Lemma same_env_trans w1 w2 w3 : same_env w1 w2 -> same_env w2 w3 -> same_env w1 w3.
Proof.
  intros (?&?&?&?&?&?&?) (?&?&?&?&?&?&?). repeat split; etrans; eauto.
Qed.

Lemma only_refl P w : only P w w.
Proof. exists []. by rewrite app_nil_r. Qed.

Lemma only_trans P w1 w2 w3 : only P w1 w2 -> only P w2 w3 -> only P w1 w3.
Proof.
  intros (e1 & H1 & F1) (e2 & H2 & F2). exists (e1 ++ e2). split.
  - by rewrite H2, H1, app_assoc.
  - by rewrite forallb_app, F1, F2.
Qed.

Lemma only_add_events P es w : forallb P es = true -> only P w (add_events es w).
Proof. intros H. by exists es. Qed.

Lemma only_events_since P w w' : only P w w' -> forallb P (events_since w w') = true.
Proof.
  intros (evs & H & F). unfold events_since. by rewrite H, drop_app_length.
Qed.

Lemma only_log P w w' :
  only P w w' -> log w' = log w ++ events_since w w'.
Proof.
  intros (evs & H & F). unfold events_since. by rewrite H, drop_app_length.
Qed.

Lemma forallb_filter_nil (P Q : event -> bool) evs :
  (forall e, P e = true -> Q e = false) ->
  forallb P evs = true -> List.filter Q evs = [].
Proof.
  intros HPQ. induction evs as [|e evs IH]; simpl; [done|].
  intros [He Hevs]%andb_true_iff. rewrite (HPQ e He). by apply IH.
Qed.

#[global] Instance quiet_step_refl : Reflexive quiet_step.
Proof. intros w. repeat split; auto using only_refl. Qed.

#[global] Instance quiet_step_trans : Transitive quiet_step.
Proof.
  intros w1 w2 w3 (E1 & D1 & O1) (E2 & D2 & O2). split; [|split].
  - eapply same_env_trans; eauto.
  - congruence.
  - eapply only_trans; eauto.
Qed.

#[global] Instance installer_step_refl : Reflexive installer_step.
Proof. intros w. repeat split; auto using only_refl. Qed.

#[global] Instance installer_step_trans : Transitive installer_step.
Proof.
  intros w1 w2 w3 (E1 & D1 & O1) (E2 & D2 & O2). split; [|split].
  - eapply same_env_trans; eauto.
  - congruence.
  - eapply only_trans; eauto.
Qed.

Section RunInv.

Context (I : world -> world -> Prop) `{!Reflexive I, !Transitive I}.

Lemma run_inv_ret {A} (a : A) : run_inv I (ret a).
Proof. intros w. simpl. reflexivity. Qed.

Lemma run_inv_raise {A} e : run_inv I (@raise A e).
Proof. intros w. simpl. reflexivity. Qed.

Lemma run_inv_lift {A} (r : result A) : run_inv I (lift r).
Proof. intros w. simpl. reflexivity. Qed.

Lemma run_inv_bind {A B} (m : M A) (k : A -> M B) :
  run_inv I m -> (forall a, run_inv I (k a)) -> run_inv I (bind m k).
Proof.
  intros Hm Hk w. unfold bind. specialize (Hm w).
  destruct (m w) as [[a|e] w1]; simpl in *; [|done].
  etrans; [exact Hm|apply Hk].
Qed.

Lemma run_inv_try_except {A} (m h : M A) handles :
  run_inv I m -> run_inv I h -> run_inv I (try_except m handles h).
Proof.
  intros Hm Hh w. unfold try_except. specialize (Hm w).
  destruct (m w) as [[a|e] w1]; simpl in *; [done|].
  destruct (handles e); simpl; [|done].
  etrans; [exact Hm|apply Hh].
Qed.

End RunInv.

Lemma run_inv_emit I e :
  (forall w, I w (add_event e w)) -> run_inv I (emit e).
Proof. intros H w. apply H. Qed.

Lemma quiet_step_add_event e w : quiet e = true -> quiet_step w (add_event e w).
Proof.
  intros H. repeat split. exists [e]. split; [done|]. simpl. by rewrite H.
Qed.

Lemma installer_step_add_event e w :
  is_installer_event e = true -> installer_step w (add_event e w).
Proof.
  intros H. repeat split. exists [e]. split; [done|]. simpl. by rewrite H.
Qed.

Create HintDb run_inv.

Ltac run_inv_step :=
  first
    [ solve [auto 1 with run_inv nocore]
    | apply run_inv_ret; tc_solve
    | apply run_inv_raise; tc_solve
    | apply run_inv_lift; tc_solve
    | apply run_inv_bind; try tc_solve; [ | intros ?]
    | apply run_inv_try_except; try tc_solve
    | match goal with
      | |- run_inv _ (match ?x with _ => _ end) => destruct x
      | |- run_inv _ (if ?x then _ else _) => destruct x
      end ].

(** *** Steps that leave the destination file alone *)

Lemma quiet_console_print m : run_inv quiet_step (console_print m).
Proof. intros w. by apply quiet_step_add_event. Qed.
#[global] Hint Resolve quiet_console_print : run_inv.

Lemma quiet_cache_exists path : run_inv quiet_step (cache_exists path).
Proof. intros w. by apply quiet_step_add_event. Qed.
#[global] Hint Resolve quiet_cache_exists : run_inv.

Lemma quiet_cache_read_text path : run_inv quiet_step (cache_read_text path).
Proof.
  intros w. unfold cache_read_text.
  destruct (cache w !! path) as [[]|]; by apply quiet_step_add_event.
Qed.
#[global] Hint Resolve quiet_cache_read_text : run_inv.

Lemma quiet_console_print_markup text m :
  run_inv quiet_step (console_print_markup text m).
Proof.
  intros w. unfold console_print_markup.
  destruct (markup_ok w text); simpl; [by apply quiet_step_add_event|].
  reflexivity.
Qed.
#[global] Hint Resolve quiet_console_print_markup : run_inv.

Lemma quiet_ensure_cache_dir : run_inv quiet_step ensure_cache_dir.
Proof.
  intros w. unfold ensure_cache_dir.
  destruct (cache_dir_ok w); by apply quiet_step_add_event.
Qed.
#[global] Hint Resolve quiet_ensure_cache_dir : run_inv.

Lemma quiet_cache_write_text path content :
  run_inv quiet_step (cache_write_text path content).
Proof.
  intros w. unfold cache_write_text.
  destruct (cache_write_ok w && negb (has_separator path)); simpl.
  - repeat split. by exists [EvCacheWrite path content].
  - by apply quiet_step_add_event.
Qed.
#[global] Hint Resolve quiet_cache_write_text : run_inv.

Lemma quiet_load_from_cache name : run_inv quiet_step (load_from_cache name).
Proof.
  unfold load_from_cache. repeat run_inv_step.
Qed.
#[global] Hint Resolve quiet_load_from_cache : run_inv.

Lemma quiet_save_to_cache name content :
  run_inv quiet_step (save_to_cache name content).
Proof.
  unfold save_to_cache. repeat run_inv_step.
Qed.
#[global] Hint Resolve quiet_save_to_cache : run_inv.

Lemma quiet_download_from_url url : run_inv quiet_step (download_from_url url).
Proof.
  intros w. rewrite download_from_url_run. simpl.
  repeat split. exists (fetch_events url). split; [done|]. by destruct url.
Qed.
#[global] Hint Resolve quiet_download_from_url : run_inv.

Lemma quiet_get_registry T : run_inv quiet_step (get_registry T).
Proof.
  intros w. rewrite get_registry_world. by apply quiet_step_add_event.
Qed.
#[global] Hint Resolve quiet_get_registry : run_inv.

Lemma quiet_template_not_found name reg :
  run_inv quiet_step (template_not_found name reg).
Proof.
  unfold template_not_found. repeat run_inv_step.
Qed.
#[global] Hint Resolve quiet_template_not_found : run_inv.

Lemma quiet_text_append v : run_inv quiet_step (text_append v).
Proof. unfold text_append. repeat run_inv_step. Qed.
#[global] Hint Resolve quiet_text_append : run_inv.

Lemma quiet_install_success template :
  run_inv quiet_step (install_success template).
Proof.
  unfold install_success. repeat run_inv_step.
Qed.
#[global] Hint Resolve quiet_install_success : run_inv.

(** *** Steps of the installer *)

Lemma installer_console_print m : run_inv installer_step (console_print m).
Proof. intros w. by apply installer_step_add_event. Qed.
#[global] Hint Resolve installer_console_print : run_inv.

Lemma installer_dest_exists : run_inv installer_step dest_exists.
Proof. intros w. by apply installer_step_add_event. Qed.
#[global] Hint Resolve installer_dest_exists : run_inv.

Lemma installer_typer_confirm : run_inv installer_step typer_confirm.
Proof.
  intros w. unfold typer_confirm.
  destruct (confirm_answer w); by apply installer_step_add_event.
Qed.
#[global] Hint Resolve installer_typer_confirm : run_inv.

Lemma installer_dest_write_text content :
  run_inv installer_step (dest_write_text content).
Proof.
  destruct content; try (apply run_inv_raise; tc_solve).
  intros w. simpl. destruct (dest_write_ok w); simpl.
  - repeat split. by exists [EvDestWrite s].
  - by apply installer_step_add_event.
Qed.
#[global] Hint Resolve installer_dest_write_text : run_inv.

Lemma installer_write_cursorrules content force :
  run_inv installer_step (write_cursorrules content force).
Proof.
  unfold write_cursorrules. repeat run_inv_step.
Qed.
#[global] Hint Resolve installer_write_cursorrules : run_inv.

Lemma installer_text_append v : run_inv installer_step (text_append v).
Proof. unfold text_append. repeat run_inv_step. Qed.
#[global] Hint Resolve installer_text_append : run_inv.

Lemma installer_install_success template :
  run_inv installer_step (install_success template).
Proof.
  unfold install_success. repeat run_inv_step.
Qed.
#[global] Hint Resolve installer_install_success : run_inv.

Lemma events_since_trans w w1 w2 e1 e2 :
  log w1 = log w ++ e1 -> log w2 = log w1 ++ e2 ->
  events_since w w2 = e1 ++ e2.
Proof.
  intros H1 H2. unfold events_since.
  by rewrite H2, H1, <- app_assoc, drop_app_length.
Qed.

Lemma events_since_add_after w w1 e1 e2 :
  log w1 = log w ++ e1 -> events_since w (add_events e2 w1) = e1 ++ e2.
Proof. intros H. by apply (events_since_trans w w1). Qed.

Lemma installer_not_fetch e : is_installer_event e = true -> is_fetch e = false.
Proof. by destruct e. Qed.

Lemma installer_not_cache e :
  is_installer_event e = true -> is_cache_access e = false.
Proof. by destruct e. Qed.

Lemma quiet_not_dest_write e : quiet e = true -> is_dest_write e = false.
Proof. by destruct e. Qed.

(** *** The installer on an existing file *)

Lemma write_cursorrules_existing content old w :
  dest w = Some old ->
  write_cursorrules content false w =
    match confirm_answer w with
    | Declined =>
        (Raise (Exit 0),
         add_events [EvDestExists; EvPrint MsgExistsWarning; EvConfirm;
                     EvPrint MsgCancelled] w)
    | Aborted =>
        (Raise Abort,
         add_events [EvDestExists; EvPrint MsgExistsWarning; EvConfirm] w)
    | Confirmed =>
        match content with
        | JStr s =>
            if dest_write_ok w then
              (Ok tt,
               set_dest (Some s)
                 (add_events [EvDestExists; EvPrint MsgExistsWarning; EvConfirm;
                              EvDestWrite s] w))
            else
              (Raise (Exit 1),
               add_events [EvDestExists; EvPrint MsgExistsWarning; EvConfirm;
                           EvDestWrite s; EvPrint MsgWriteError] w)
        | _ =>
            (Raise TypeError,
             add_events [EvDestExists; EvPrint MsgExistsWarning; EvConfirm] w)
        end
    end.
Proof.
  intros Hd.
  unfold write_cursorrules, bind, dest_exists, console_print, emit, typer_confirm,
    try_except, dest_write_text, raise, ret.
  simpl. rewrite Hd. simpl.
  destruct (confirm_answer w); simpl; [|world_eq|world_eq].
  destruct content; simpl; try world_eq.
  destruct (dest_write_ok w); simpl; world_eq.
Qed.

(** The installer when nothing stands in the way of the write: the file
    is absent, or [force] is set. *)
Lemma write_cursorrules_free (s : string) force w :
  dest w = None \/ force = true ->
  dest_write_ok w = true ->
  write_cursorrules (JStr s) force w =
    (Ok tt, set_dest (Some s) (add_events [EvDestExists; EvDestWrite s] w)).
Proof.
  intros Hfree Hok.
  unfold write_cursorrules, bind, dest_exists, try_except, dest_write_text, ret.
  simpl.
  assert (bool_decide (is_Some (dest w)) && negb force = false) as ->.
  { destruct Hfree as [-> | ->]; [done|]. by rewrite andb_false_r. }
  simpl. rewrite Hok. world_eq.
Qed.

(** *** Overwrite protection along a whole command *)

Lemma asked_quiet_prefix a evs l :
  forallb quiet evs = true ->
  asked_before_write_from a (evs ++ l) = asked_before_write_from a l.
Proof.
  induction evs as [|e evs IH]; simpl; [done|].
  intros [He Hevs]%andb_true_iff. destruct e; simpl in *; auto; done.
Qed.

Lemma asked_quiet_suffix a l evs :
  forallb quiet evs = true ->
  asked_before_write_from a (l ++ evs) = asked_before_write_from a l.
Proof.
  intros Hq. revert a. induction l as [|e l IH]; intros a; simpl.
  - rewrite <- (app_nil_r evs). by rewrite asked_quiet_prefix.
  - destruct e; simpl; rewrite ?IH; done.
Qed.

Lemma quiet_no_confirm evs :
  forallb quiet evs = true -> existsb is_confirm evs = false.
Proof.
  induction evs as [|e evs IH]; simpl; [done|].
  intros [He Hevs]%andb_true_iff. rewrite (IH Hevs). by destruct e.
Qed.

Lemma protects_quiet w0 w2 r : quiet_step w0 w2 -> protects w0 (r, w2).
Proof.
  intros (_ & Hd & Ho). pose proof (only_events_since _ _ _ Ho) as Hq.
  unfold protects; simpl. split.
  - unfold asked_before_write.
    rewrite <- (app_nil_r (events_since w0 w2)). by rewrite asked_quiet_prefix.
  - intros _. split; [done|]. split.
    + eapply forallb_filter_nil; [|exact Hq]. apply quiet_not_dest_write.
    + by rewrite quiet_no_confirm.
Qed.

Lemma guarded_of_quiet (m : M unit) : run_inv quiet_step m -> guarded_cmd m.
Proof.
  intros Hm w0 old w1 _ H01. specialize (Hm w1).
  destruct (m w1) as [r w2]. apply protects_quiet. by etrans.
Qed.

Lemma guarded_bind {A} (m : M A) (k : A -> M unit) :
  run_inv quiet_step m -> (forall a, guarded_cmd (k a)) -> guarded_cmd (bind m k).
Proof.
  intros Hm Hk w0 old w1 Hd H01. specialize (Hm w1). unfold bind.
  destruct (m w1) as [[a|e] w2]; simpl in Hm.
  - eapply Hk; [exact Hd|by etrans].
  - apply protects_quiet. by etrans.
Qed.

Lemma guarded_write content (post : M unit) :
  run_inv quiet_step post ->
  guarded_cmd (write_cursorrules content false ;; post).
Proof.
  intros Hpost w0 old w1 Hd (He & Hd1 & Ho1).
  pose proof (only_events_since _ _ _ Ho1) as Hq1.
  pose proof (only_log _ _ _ Ho1) as Hl1.
  destruct He as (_ & _ & Hans & _ & _).
  unfold bind. rewrite (write_cursorrules_existing content old) by congruence.
  rewrite Hans.
  destruct (confirm_answer w0) eqn:Hc.
  - (* the user agrees *)
    assert (forall r w3 l,
      log w3 = log w1 ++ [EvDestExists; EvPrint MsgExistsWarning; EvConfirm] ++ l ->
      asked_before_write_from true l = true -> protects w0 (r, w3)) as Hyes.
    { intros r w3 l Hl3 Hl. unfold protects; simpl.
      rewrite (events_since_trans w0 w1 w3 _ _ Hl1 Hl3).
      split; [|intros ?; congruence]. unfold asked_before_write.
      by rewrite asked_quiet_prefix. }
    destruct content; try (by eapply (Hyes _ _ [])).
    destruct (dest_write_ok w1).
    + specialize (Hpost (set_dest (Some s)
        (add_events [EvDestExists; EvPrint MsgExistsWarning; EvConfirm;
                     EvDestWrite s] w1))).
      destruct (post _) as [r w3]. simpl in Hpost.
      destruct Hpost as (_ & _ & (evs3 & Hl3 & Hq3)). simpl in Hl3.
      eapply (Hyes _ _ (EvDestWrite s :: evs3)).
      * rewrite Hl3. by rewrite <- !app_assoc.
      * simpl. rewrite <- (app_nil_l evs3). by rewrite asked_quiet_suffix.
    + by eapply (Hyes _ _ [EvDestWrite s; EvPrint MsgWriteError]).
  - (* the user declines *)
    unfold protects; simpl.
    rewrite (events_since_add_after w0 w1 _ _ Hl1).
    split.
    + unfold asked_before_write. by rewrite asked_quiet_prefix.
    + intros _. split; [done|]. split; [|done].
      rewrite List.filter_app. simpl. rewrite app_nil_r.
      eapply forallb_filter_nil; [|exact Hq1]. apply quiet_not_dest_write.
  - (* end of input at the prompt *)
    unfold protects; simpl.
    rewrite (events_since_add_after w0 w1 _ _ Hl1).
    split; [|intros ?; congruence].
    unfold asked_before_write. by rewrite asked_quiet_prefix.
Qed.

Lemma guarded_install_from_url u : guarded_cmd (install_from_url u false).
Proof.
  unfold install_from_url.
  apply guarded_bind; [apply quiet_console_print|intros _].
  apply guarded_bind;
    [|intros content; apply guarded_write, quiet_console_print].
  repeat run_inv_step.
Qed.

Lemma guarded_install_by_name T name no_cache :
  guarded_cmd (install_by_name T name false no_cache).
Proof.
  unfold install_by_name.
  apply guarded_bind; [apply quiet_get_registry|intros reg].
  destruct (reg !! KStr name) as [template|];
    [|apply guarded_of_quiet, quiet_template_not_found].
  apply guarded_bind; [apply run_inv_lift; tc_solve|intros has_url].
  apply guarded_bind;
    [|intros content; apply guarded_write, quiet_install_success].
  repeat run_inv_step.
Qed.

Lemma guarded_install T name url no_cache :
  guarded_cmd (install T name url false no_cache).
Proof.
  unfold install.
  destruct (truthy_opt url && truthy_opt name).
  { apply guarded_of_quiet. repeat run_inv_step. }
  destruct (negb (truthy_opt url) && negb (truthy_opt name)).
  { apply guarded_of_quiet. repeat run_inv_step. }
  destruct (if_truthy url).
  - apply guarded_install_from_url.
  - apply guarded_install_by_name.
Qed.

(** *** The two modes of [install] *)

Lemma install_url_mode T name u force no_cache w :
  truthy_opt name = false -> truthy u = true ->
  install T name (Some u) force no_cache w = install_from_url u force w.
Proof. intros Hn Hu. unfold install. simpl. by rewrite Hn, Hu. Qed.

Lemma install_name_mode T name url force no_cache w :
  truthy name = true -> truthy_opt url = false ->
  install T (Some name) url force no_cache w =
    install_by_name T name force no_cache w.
Proof.
  intros Hn Hu. unfold install. simpl. rewrite Hn, Hu. simpl.
  destruct url as [u|]; [|done]. simpl in *. by rewrite Hu.
Qed.

Lemma install_from_url_run u force w :
  install_from_url u force w =
    match fetch_result w (JStr u) with
    | Some text =>
        (write_cursorrules (JStr text) force ;;
         console_print MsgInstalledFromUrl)
          (add_events [EvPrint MsgDownloadingFromUrl; EvGet u] w)
    | None =>
        (Raise (Exit 1),
         add_events [EvPrint MsgDownloadingFromUrl; EvGet u;
                     EvPrint MsgFailedToDownload] w)
    end.
Proof.
  unfold install_from_url.
  unfold bind at 1. unfold console_print at 1, emit. unfold bind at 1.
  unfold try_except. rewrite download_from_url_run.
  change (fetch_result (add_event _ w) (JStr u)) with (fetch_result w (JStr u)).
  destruct (fetch_result w (JStr u)) as [text|]; simpl; [|world_eq].
  rewrite add_event_events, add_events_app. done.
Qed.

(** A run of installer steps after the events [pre]. *)
Lemma installer_tail {A} (m : M A) pre w :
  run_inv installer_step m ->
  exists evs,
    events_since w (m (add_events pre w)).2 = pre ++ evs /\
    forallb is_installer_event evs = true /\
    cache (m (add_events pre w)).2 = cache w.
Proof.
  intros Hm. destruct (Hm (add_events pre w)) as (_ & Hc & (evs & Hl & Hi)).
  exists evs. split; [|done].
  by apply (events_since_trans w (add_events pre w)).
Qed.

(** ** Arguments, direct URLs and the overwrite prompt *)

(** C10, as the code has it: an argument counts as given when it is a
    non-empty string (the tests are [if url and name] and
    [if not url and not name]).  When both a template name and a URL are
    given in that sense, or neither is, [install] ends with
    [typer.Exit(code=1)] after printing one message: the log gains that
    message only (no request, no cache access, no write), and the cache
    and the destination file are as before. *)
Theorem install_rejects_both_or_neither T name url force no_cache w :
  (truthy_opt name = true /\ truthy_opt url = true) \/
  (truthy_opt name = false /\ truthy_opt url = false) ->
  let rw := install T name url force no_cache w in
  rw.1 = Raise (Exit 1) /\
  exit_status rw.1 = 1 /\
  events_since w rw.2 =
    [EvPrint (if truthy_opt url then MsgEitherNotBoth else MsgProvideNameOrUrl)] /\
  cache rw.2 = cache w /\
  dest rw.2 = dest w.
Proof.
  intros [[Hn Hu] | [Hn Hu]]; unfold install; rewrite Hn, Hu; simpl;
    rewrite add_event_events, events_since_add; done.
Qed.

Lemma install_rejects_both_or_neither_witness :
  let rw := install sample_TEMPLATES (Some "python")
              (Some "https://example.com/rules.txt") false false sample_world in
  rw.1 = Raise (Exit 1) /\
  exit_status rw.1 = 1 /\
  events_since sample_world rw.2 = [EvPrint MsgEitherNotBoth] /\
  cache rw.2 = cache sample_world /\
  dest rw.2 = dest sample_world.
Proof.
  apply (install_rejects_both_or_neither sample_TEMPLATES (Some "python")
           (Some "https://example.com/rules.txt") false false sample_world).
  left. split; reflexivity.
Defined.

(** C10 as stated fails on an empty argument: with the template name
    given as the empty string and a URL given as well, [install] does not
    stop there; it runs in URL mode, requests the URL and writes the
    destination file. *)
Lemma install_empty_name_counterexample :
  let w := sample_online in
  let rw := install sample_TEMPLATES (Some "") (Some sample_url) false false w in
  rw.1 = Ok tt /\
  List.filter is_fetch (events_since w rw.2) = [EvGet sample_url] /\
  dest rw.2 = Some "# React rules v1".
Proof. by vm_compute. Qed.

(** C9: a direct-URL install makes exactly one request, the one for the
    URL, and never touches the cache; when the download fails the command
    prints the failure and ends with [typer.Exit(code=1)] without having
    looked at or written the destination file. *)
Theorem install_url_one_fetch_no_cache T name u force no_cache w :
  truthy_opt name = false ->
  truthy u = true ->
  let rw := install T name (Some u) force no_cache w in
  List.filter is_fetch (events_since w rw.2) = [EvGet u] /\
  List.filter is_cache_access (events_since w rw.2) = [] /\
  cache rw.2 = cache w /\
  (fetch_result w (JStr u) = None ->
     rw = (Raise (Exit 1),
           add_events [EvPrint MsgDownloadingFromUrl; EvGet u;
                       EvPrint MsgFailedToDownload] w) /\
     exit_status rw.1 = 1 /\
     dest rw.2 = dest w /\
     List.filter is_dest_write (events_since w rw.2) = []).
Proof.
  intros Hn Hu rw. subst rw.
  rewrite (install_url_mode T name u force no_cache w Hn Hu).
  rewrite install_from_url_run.
  destruct (fetch_result w (JStr u)) as [text|].
  - destruct (installer_tail
      (write_cursorrules (JStr text) force ;; console_print MsgInstalledFromUrl)
      [EvPrint MsgDownloadingFromUrl; EvGet u] w) as (evs & -> & Hi & ->).
    { repeat run_inv_step. }
    rewrite !List.filter_app. simpl.
    rewrite (forallb_filter_nil _ _ _ installer_not_fetch Hi).
    rewrite (forallb_filter_nil _ _ _ installer_not_cache Hi).
    repeat split; try done.
  - simpl. rewrite events_since_add. repeat split; done.
Qed.

Lemma install_url_one_fetch_no_cache_witness :
  let u := "https://example.com/rules.txt" in
  let rw := install sample_TEMPLATES None (Some u) false false sample_world in
  List.filter is_fetch (events_since sample_world rw.2) = [EvGet u] /\
  List.filter is_cache_access (events_since sample_world rw.2) = [] /\
  cache rw.2 = cache sample_world /\
  (fetch_result sample_world (JStr u) = None ->
     rw = (Raise (Exit 1),
           add_events [EvPrint MsgDownloadingFromUrl; EvGet u;
                       EvPrint MsgFailedToDownload] sample_world) /\
     exit_status rw.1 = 1 /\
     dest rw.2 = dest sample_world /\
     List.filter is_dest_write (events_since sample_world rw.2) = []).
Proof.
  apply (install_url_one_fetch_no_cache sample_TEMPLATES None
           "https://example.com/rules.txt" false false sample_world);
    reflexivity.
Defined.



(** ** The registry overlay *)

Lemma dict_merge_lookup d members k :
  dict_merge d members !! KStr k =
    match dict_get k members with
    | Some v => Some v
    | None => d !! KStr k
    end.
Proof.
  unfold dict_merge. revert d.
  induction members as [|[k' v] rest IH]; intros d; simpl; [done|].
  rewrite IH. destruct (dict_get k rest) as [v'|]; [done|].
  destruct (String.eqb_spec k k') as [->|Hne].
  - by rewrite lookup_insert_eq.
  - rewrite lookup_insert_ne; [done|congruence].
Qed.

Lemma dict_merge_lookup_other d members key :
  (forall k, key <> KStr k) ->
  dict_merge d members !! key = d !! key.
Proof.
  intros Hkey. unfold dict_merge. revert d.
  induction members as [|[k' v] rest IH]; intros d; simpl; [done|].
  rewrite IH. by rewrite lookup_insert_ne.
Qed.

Lemma dict_update_nothing T remote_templates :
  overlays_nothing remote_templates = true ->
  exists o, dict_update T remote_templates = (T, o) /\
            (o = None \/ o = Some ValueError).
Proof.
  destruct remote_templates as [| | |s|items|]; try done; intros H.
  - destruct s as [|c s]; [by exists None; auto|].
    exists (Some ValueError). by auto.
  - destruct items as [|item rest]; [by exists None; auto|].
    simpl in *.
    destruct (seq_of_item item) as [[|x [|v [|y l]]]|e]; try done;
      exists (Some ValueError); by auto.
Qed.

Lemma get_registry_try_unavailable T r :
  remote_unavailable r = true ->
  exists o, get_registry_try T r = (T, o) /\
            match o with Some e => get_registry_handles e = true | None => True end.
Proof.
  unfold remote_unavailable, get_registry_try, dict_has, py_getitem.
  destruct r as [|status body]; [by exists (Some RequestException)|].
  destruct (raises_for_status status); [by exists (Some RequestException)|].
  destruct body as [data|]; [|by exists (Some ValueError)].
  destruct data as [| | | | |members]; try by exists None.
  destruct (dict_get "templates" members) as [remote_templates|];
    [|by exists None].
  rewrite orb_false_l.
  intros H. destruct (dict_update_nothing T remote_templates H) as (o & -> & Ho).
  exists o. split; [done|]. by destruct Ho as [-> | ->].
Qed.




(** The overlay is not all-or-nothing either: from a ["templates"] that
    is an array, the pairs before the first rejected element stay. *)
Lemma get_registry_partial_overlay :
  let w := World (RegistryHttp 200
                    (Some (JObj [("templates",
                                  JArr [JArr [JStr "extra"; JNum 1]; JStr "x"])])))
                 offline Declined true true true sample_markup ∅ None [] in
  exists merged,
    (get_registry sample_TEMPLATES w).1 = Ok merged /\
    merged !! KStr "extra" = Some (JNum 1) /\
    sample_TEMPLATES !! KStr "extra" = None.
Proof.
  eexists. split; [reflexivity|]. split; by vm_compute.
Qed.

(** C5: when the remote document is accepted (no error status, an object
    whose ["templates"] is an object), [get_registry] returns a registry
    in which every key of the remote mapping has the remote descriptor and
    every other key has what the bundled mapping has. *)
Theorem get_registry_remote_wins T w status doc remote :
  registry_response w = RegistryHttp status (Some (JObj doc)) ->
  raises_for_status status = false ->
  dict_get "templates" doc = Some (JObj remote) ->
  exists merged,
    get_registry T w = (Ok merged, add_event (EvGet REMOTE_REGISTRY_URL) w) /\
    (forall key descriptor,
       dict_get key remote = Some descriptor ->
       merged !! KStr key = Some descriptor) /\
    (forall key,
       dict_get key remote = None -> merged !! KStr key = T !! KStr key) /\
    (forall k, (forall key, k <> KStr key) -> merged !! k = T !! k).
Proof.
  intros Hr Hs Ht. exists (dict_merge T remote).
  unfold get_registry. rewrite Hr. simpl. rewrite Hs.
  unfold dict_has. rewrite Ht. simpl.
  split; [done|]. split; [|split].
  - intros key descriptor Hk. by rewrite dict_merge_lookup, Hk.
  - intros key Hk. by rewrite dict_merge_lookup, Hk.
  - intros k Hk. by apply dict_merge_lookup_other.
Qed.

Lemma get_registry_remote_wins_witness :
  exists merged,
    get_registry sample_TEMPLATES sample_world =
      (Ok merged, add_event (EvGet REMOTE_REGISTRY_URL) sample_world) /\
    (forall key descriptor,
       dict_get key [("react", sample_react)] = Some descriptor ->
       merged !! KStr key = Some descriptor) /\
    (forall key,
       dict_get key [("react", sample_react)] = None ->
       merged !! KStr key = sample_TEMPLATES !! KStr key) /\
    (forall k, (forall key, k <> KStr key) -> merged !! k = sample_TEMPLATES !! k).
Proof.
  apply (get_registry_remote_wins sample_TEMPLATES sample_world 200
           [("templates", JObj [("react", sample_react)])]
           [("react", sample_react)]); reflexivity.
Defined.

(** *** Stepping through a command *)

#[global] Arguments write_cursorrules : simpl never.
#[global] Arguments install_success : simpl never.
#[global] Arguments load_from_cache : simpl never.
#[global] Arguments save_to_cache : simpl never.
#[global] Arguments download_from_url : simpl never.
#[global] Arguments get_registry : simpl never.
#[global] Arguments fetch_result : simpl never.
#[global] Arguments add_events : simpl never.
#[global] Arguments add_event : simpl never.

Lemma bind_lift_ok {A B} (a : A) (k : A -> M B) w :
  bind (lift (Ok a)) k w = k a w.
Proof. reflexivity. Qed.

Lemma bind_ret {A B} (a : A) (k : A -> M B) w : bind (ret a) k w = k a w.
Proof. reflexivity. Qed.

Lemma bind_print {B} m (k : unit -> M B) w :
  bind (console_print m) k w = k tt (add_events [EvPrint m] w).
Proof. reflexivity. Qed.

Lemma console_print_markup_run text m evs w :
  console_print_markup text m (add_events evs w) =
    if markup_ok w text then (Ok tt, add_events (evs ++ [EvPrint m]) w)
    else (Raise MarkupError, add_events evs w).
Proof.
  unfold console_print_markup. change (markup_ok (add_events evs w)) with (markup_ok w).
  destruct (markup_ok w text); [|done].
  by rewrite add_event_events, add_events_app.
Qed.

Lemma bind_assoc {A B C} (m : M A) (k : A -> M B) (h : B -> M C) w :
  bind (bind m k) h w = bind m (fun a => bind (k a) h) w.
Proof. unfold bind. by destruct (m w) as [[a|e] w']. Qed.

Ltac step_registry Hreg Hlook :=
  rewrite (bind_ok _ _ _ _ _ (get_registry_run _ _ _ Hreg)); cbv beta;
  rewrite Hlook.

Lemma try_except_ok {A} (m h : M A) handles w a w' :
  m w = (Ok a, w') -> try_except m handles h w = (Ok a, w').
Proof. unfold try_except. by intros ->. Qed.

Lemma try_except_caught {A} (m h : M A) handles w e w' r :
  m w = (Raise e, w') -> handles e = true -> h w' = r ->
  try_except m handles h w = r.
Proof. unfold try_except. by intros -> -> <-. Qed.

Lemma load_from_cache_miss name w :
  cache_misses w name = true ->
  exists o,
    load_from_cache name w = (Ok o, add_events (cache_probe_events w name) w) /\
    if_truthy o = None.
Proof.
  unfold cache_misses, cache_probe_events. intros H.
  destruct (cache w !! get_cache_path name) as [[s| |]|] eqn:Hc; try done.
  - exists (Some s). split; [by apply load_from_cache_text|].
    simpl. by destruct (truthy s).
  - exists None. split; [by apply load_from_cache_oserror|done].
  - exists None. split; [by apply load_from_cache_absent|done].
Qed.

Lemma download_from_url_fails url w :
  fetch_result w url = None ->
  download_from_url url w =
    (Raise RequestException, add_events (fetch_events url) w).
Proof. intros H. by rewrite download_from_url_run, H. Qed.

Lemma download_from_url_ok url text w :
  fetch_result w url = Some text ->
  download_from_url url w = (Ok text, add_events (fetch_events url) w).
Proof. intros H. by rewrite download_from_url_run, H. Qed.

(** *** [install] and [show] on a remote descriptor *)

Section RemoteDescriptor.

Context (T : registry) (name : string) (w : world).
Context (reg : registry) (template display url : json).
Hypothesis Hreg : (get_registry T w).1 = Ok reg.
Hypothesis Hlook : reg !! KStr name = Some template.
Hypothesis Hremote : remote_descriptor template display url.

Lemma install_cache_hit force c :
  cache w !! get_cache_path name = Some (CacheText c) ->
  truthy c = true ->
  install_by_name T name force false w =
    install_with template c force
      (add_events [EvGet REMOTE_REGISTRY_URL; EvCacheExists (get_cache_path name);
                   EvCacheRead (get_cache_path name);
                   EvPrint (MsgLoadedFromCache display)] w).
Proof.
  destruct Hremote as (Hurl & Hname & Hu). intros Hc Ht.
  unfold install_by_name.
  step_registry Hreg Hlook. rewrite Hurl, bind_lift_ok.
  simpl negb. cbv iota. rewrite !bind_assoc.
  erewrite bind_ok by (apply load_from_cache_text; exact Hc).
  simpl if_truthy. rewrite Ht, Hname.
  rewrite bind_assoc, bind_lift_ok, bind_assoc, bind_print, bind_ret, bind_ret.
  by rewrite !add_events_app.
Qed.

Lemma show_cache_hit c :
  cache w !! get_cache_path name = Some (CacheText c) ->
  truthy c = true ->
  show T name w =
    console_print_markup c (MsgPanel c display)
      (add_events [EvGet REMOTE_REGISTRY_URL; EvCacheExists (get_cache_path name);
                   EvCacheRead (get_cache_path name);
                   EvPrint MsgShowLoadedFromCache] w).
Proof.
  destruct Hremote as (Hurl & Hname & Hu). intros Hc Ht.
  unfold show. step_registry Hreg Hlook. rewrite Hurl, bind_lift_ok.
  rewrite !bind_assoc.
  erewrite bind_ok by (apply load_from_cache_text; exact Hc).
  simpl if_truthy. rewrite Ht, Hname.
  rewrite bind_assoc, bind_print, bind_ret, bind_lift_ok.
  by rewrite !add_events_app.
Qed.

(** [install] up to the request: the cache is skipped or misses. *)
Lemma install_reaches_fetch force no_cache :
  no_cache = true \/ cache_misses w name = true ->
  install_by_name T name force no_cache w =
    (content <-
       try_except
         (url <- lift (py_getitem template "url") ;;
          content <- download_from_url url ;;
          save_to_cache name content ;;
          ret (JStr content))
         is_RequestException
         (cached_content <- load_from_cache name ;;
          match if_truthy cached_content with
          | Some c =>
              console_print MsgNetworkErrorUsingCached ;;
              ret (JStr c)
          | None =>
              console_print MsgFailedToDownloadTemplate ;;
              raise (Exit 1)
          end) ;;
     write_cursorrules content force ;;
     install_success template)
      (add_events
         ([EvGet REMOTE_REGISTRY_URL]
          ++ (if no_cache then [] else cache_probe_events w name)
          ++ [EvPrint (MsgFetching display)]) w).
Proof.
  destruct Hremote as (Hurl & Hname & Hu). intros Hmiss.
  unfold install_by_name.
  step_registry Hreg Hlook. rewrite Hurl, bind_lift_ok.
  destruct no_cache; simpl negb; cbv iota.
  - rewrite bind_assoc, bind_ret. cbv iota.
    rewrite Hname, !bind_assoc, bind_lift_ok, bind_assoc, bind_print.
    by rewrite add_events_app.
  - destruct Hmiss as [|Hmiss]; [done|].
    destruct (load_from_cache_miss name (add_events [EvGet REMOTE_REGISTRY_URL] w))
      as (o & Hload & Ho); [exact Hmiss|].
    rewrite !bind_assoc. erewrite bind_ok by exact Hload.
    rewrite Ho, bind_ret. cbv iota.
    rewrite Hname, !bind_assoc, bind_lift_ok, bind_assoc, bind_print.
    by rewrite !add_events_app.
Qed.

Lemma save_to_cache_returns content w0 :
  (save_to_cache name content w0).1 = Ok tt.
Proof.
  destruct (save_succeeds w0 name) eqn:H.
  - by rewrite save_to_cache_ok.
  - by rewrite save_to_cache_failed.
Qed.

Lemma fetch_and_cache_ok text w0 :
  fetch_result w0 url = Some text ->
  (url <- lift (py_getitem template "url") ;;
   content <- download_from_url url ;;
   save_to_cache name content ;;
   ret (JStr content)) w0 =
    (Ok (JStr text),
     (save_to_cache name text (add_events (fetch_events url) w0)).2).
Proof.
  destruct Hremote as (Hurl & Hname & Hu). intros Hf.
  rewrite Hu, bind_lift_ok.
  erewrite bind_ok by (apply download_from_url_ok; exact Hf).
  unfold bind. pose proof (save_to_cache_returns text
    (add_events (fetch_events url) w0)) as Hs.
  destruct (save_to_cache name text _) as [[[]|e] w1]; simpl in *; [done|].
  discriminate.
Qed.

Lemma fetch_and_cache_fails w0 :
  fetch_result w0 url = None ->
  (url <- lift (py_getitem template "url") ;;
   content <- download_from_url url ;;
   save_to_cache name content ;;
   ret (JStr content)) w0 =
    (Raise RequestException, add_events (fetch_events url) w0).
Proof.
  destruct Hremote as (Hurl & Hname & Hu). intros Hf.
  rewrite Hu, bind_lift_ok.
  by erewrite bind_raise by (apply download_from_url_fails; exact Hf).
Qed.

Lemma install_fetched force no_cache text :
  no_cache = true \/ cache_misses w name = true ->
  fetch_result w url = Some text ->
  install_by_name T name force no_cache w =
    install_with template text force
      (save_to_cache name text
         (add_events (fetch_prefix no_cache w name display url) w)).2.
Proof.
  intros Hmiss Hf. rewrite install_reaches_fetch by done.
  erewrite bind_ok
    by (eapply try_except_ok; apply fetch_and_cache_ok; exact Hf).
  unfold fetch_prefix. by rewrite add_events_app, <- !app_assoc.
Qed.

Lemma install_fallback force c :
  fetch_result w url = None ->
  cache w !! get_cache_path name = Some (CacheText c) ->
  truthy c = true ->
  install_by_name T name force true w =
    install_with template c force
      (add_events
         (fetch_prefix true w name display url
          ++ [EvCacheExists (get_cache_path name);
              EvCacheRead (get_cache_path name);
              EvPrint MsgNetworkErrorUsingCached]) w).
Proof.
  intros Hf Hc Ht. rewrite install_reaches_fetch by auto.
  erewrite bind_ok.
  2:{ eapply try_except_caught; [apply fetch_and_cache_fails; exact Hf|done|].
      erewrite bind_ok by (apply load_from_cache_text; exact Hc).
      unfold if_truthy. rewrite Ht. rewrite bind_print. reflexivity. }
  unfold fetch_prefix. by rewrite !add_events_app, <- !app_assoc.
Qed.

Lemma install_fails force no_cache :
  no_cache = true \/ cache_misses w name = true ->
  fetch_result w url = None ->
  cache_misses w name = true ->
  install_by_name T name force no_cache w =
    (Raise (Exit 1),
     add_events
       (fetch_prefix no_cache w name display url
        ++ cache_probe_events w name
        ++ [EvPrint MsgFailedToDownloadTemplate]) w).
Proof.
  intros Hreach Hf Hmiss. rewrite install_reaches_fetch by done.
  destruct (load_from_cache_miss name
    (add_events (fetch_events url)
       (add_events
          ([EvGet REMOTE_REGISTRY_URL]
           ++ (if no_cache then [] else cache_probe_events w name)
           ++ [EvPrint (MsgFetching display)]) w)))
    as (o & Hload & Ho); [exact Hmiss|].
  erewrite bind_raise.
  2:{ eapply try_except_caught; [apply fetch_and_cache_fails; exact Hf|done|].
      erewrite bind_ok by exact Hload. rewrite Ho, bind_print. reflexivity. }
  unfold fetch_prefix. f_equal. rewrite !add_events_app, <- !app_assoc.
  reflexivity.
Qed.

Lemma show_reaches_fetch :
  cache_misses w name = true ->
  show T name w =
    (content <-
       try_except
         (url <- lift (py_getitem template "url") ;;
          content <- download_from_url url ;;
          save_to_cache name content ;;
          ret (JStr content))
         is_RequestException
         (console_print MsgFailedToFetchPreview ;; raise (Exit 1)) ;;
     display <- lift (py_getitem template "name") ;;
     match content with
     | JStr s => console_print_markup s (MsgPanel s display)
     | _ => raise NotRenderableError
     end)
      (add_events
         ([EvGet REMOTE_REGISTRY_URL]
          ++ cache_probe_events w name
          ++ [EvPrint (MsgFetchingPreview display)]) w).
Proof.
  destruct Hremote as (Hurl & Hname & Hu). intros Hmiss.
  unfold show. step_registry Hreg Hlook. rewrite Hurl, bind_lift_ok.
  destruct (load_from_cache_miss name (add_events [EvGet REMOTE_REGISTRY_URL] w))
    as (o & Hload & Ho); [exact Hmiss|].
  rewrite !bind_assoc. erewrite bind_ok by exact Hload.
  rewrite Ho. rewrite Hname at 1.
  rewrite !bind_assoc, bind_lift_ok, bind_assoc, bind_print.
  by rewrite !add_events_app.
Qed.

Lemma show_fetched text :
  cache_misses w name = true ->
  fetch_result w url = Some text ->
  show T name w =
    console_print_markup text (MsgPanel text display)
      (save_to_cache name text
         (add_events (show_prefix w name display url) w)).2.
Proof.
  destruct Hremote as (Hurl & Hname & Hu).
  intros Hmiss Hf. rewrite show_reaches_fetch by done.
  erewrite bind_ok
    by (eapply try_except_ok; apply fetch_and_cache_ok; exact Hf).
  rewrite Hname, bind_lift_ok.
  unfold show_prefix. by rewrite add_events_app, <- !app_assoc.
Qed.

Lemma show_fails :
  cache_misses w name = true ->
  fetch_result w url = None ->
  show T name w =
    (Raise (Exit 1),
     add_events
       (show_prefix w name display url ++ [EvPrint MsgFailedToFetchPreview]) w).
Proof.
  intros Hmiss Hf. rewrite show_reaches_fetch by done.
  erewrite bind_raise.
  2:{ eapply try_except_caught; [apply fetch_and_cache_fails; exact Hf|done|].
      rewrite bind_print. reflexivity. }
  unfold show_prefix. f_equal. rewrite !add_events_app, <- !app_assoc.
  reflexivity.
Qed.

End RemoteDescriptor.

(** *** [install] and [show] on an inline descriptor *)

Lemma install_inline T name force no_cache w reg template text :
  (get_registry T w).1 = Ok reg ->
  reg !! KStr name = Some template ->
  inline_descriptor template text ->
  install_by_name T name force no_cache w =
    install_with template text force (add_events [EvGet REMOTE_REGISTRY_URL] w).
Proof.
  intros Hreg Hlook (Hurl & Hcontent). unfold install_by_name.
  step_registry Hreg Hlook. rewrite Hurl, bind_lift_ok. cbv iota.
  by rewrite Hcontent, bind_lift_ok.
Qed.

Lemma show_inline T name w reg template text display :
  (get_registry T w).1 = Ok reg ->
  reg !! KStr name = Some template ->
  inline_descriptor template text ->
  py_getitem template "name" = Ok display ->
  show T name w =
    console_print_markup text (MsgPanel text display)
      (add_events [EvGet REMOTE_REGISTRY_URL] w).
Proof.
  intros Hreg Hlook (Hurl & Hcontent) Hname. unfold show.
  step_registry Hreg Hlook. rewrite Hurl, bind_lift_ok. cbv iota.
  by rewrite Hcontent, bind_lift_ok, Hname, bind_lift_ok.
Qed.

(** *** The write after the content is known *)

Lemma write_cursorrules_goes_ahead (s : string) force w :
  goes_ahead force w = true ->
  dest_write_ok w = true ->
  exists evs,
    write_cursorrules (JStr s) force w =
      (Ok tt, set_dest (Some s) (add_events evs w)).
Proof.
  unfold goes_ahead. intros Hgo Hok.
  destruct (dest w) as [old|] eqn:Hd; [destruct force|].
  - eexists. apply write_cursorrules_free; auto.
  - simpl in Hgo. destruct (confirm_answer w) eqn:Hc; try done.
    eexists. rewrite (write_cursorrules_existing _ old) by done.
    by rewrite Hc, Hok.
  - eexists. apply write_cursorrules_free; auto.
Qed.

Lemma install_with_goes_ahead template (s : string) force w :
  goes_ahead force w = true ->
  dest_write_ok w = true ->
  dest (install_with template s force w).2 = Some s /\
  (forall d, py_getitem template "name" = Ok (JStr d) ->
             (install_with template s force w).1 = Ok tt).
Proof.
  intros Hgo Hok.
  destruct (write_cursorrules_goes_ahead s force w Hgo Hok) as (evs & Hw).
  unfold install_with. rewrite (bind_ok _ _ _ _ _ Hw). split.
  - destruct (quiet_install_success template (set_dest (Some s) (add_events evs w)))
      as (_ & Hd & _). by rewrite Hd.
  - intros d Hname. unfold install_success. by rewrite Hname.
Qed.

Lemma install_offline_uses_cache T name force no_cache w reg template display url c :
  truthy name = true ->
  (get_registry T w).1 = Ok reg ->
  reg !! KStr name = Some template ->
  remote_descriptor template display url ->
  no_cache = false \/ fetch_result w url = None ->
  cache w !! get_cache_path name = Some (CacheText c) ->
  truthy c = true ->
  install T (Some name) None force no_cache w =
    install_with template c force
      (add_events (cached_events no_cache w name display url) w).
Proof.
  intros Hn Hreg Hlook Hremote Hoff Hc Ht.
  rewrite install_name_mode by done. destruct no_cache.
  - destruct Hoff as [|Hf]; [done|]. by eapply install_fallback.
  - by eapply install_cache_hit.
Qed.

Lemma installer_not_fetch_filter pre evs :
  forallb is_installer_event evs = true ->
  List.filter is_fetch (pre ++ evs) = List.filter is_fetch pre.
Proof.
  intros Hi. rewrite List.filter_app.
  by rewrite (forallb_filter_nil _ _ _ installer_not_fetch Hi), app_nil_r.
Qed.

Lemma install_with_tail template c force pre w :
  exists evs,
    events_since w (install_with template c force (add_events pre w)).2
      = pre ++ evs /\
    forallb is_installer_event evs = true /\
    cache (install_with template c force (add_events pre w)).2 = cache w.
Proof. apply installer_tail. unfold install_with. repeat run_inv_step. Qed.

Lemma sample_react_remote :
  remote_descriptor sample_react (JStr "React") (JStr sample_url).
Proof. by repeat split. Qed.

(** ** Name-based resolution *)

(** C1, as the code has it: when the request for the content of a remote
    template fails and the cache file reads as a non-empty text,
    [install] goes on with that text whether or not [--no-cache] was
    given: with it through the fallback read after the failed request,
    without it through the first read.  The write that follows puts that
    text in the destination file. *)
Theorem fetch_failure_falls_back_to_cache
    T name force no_cache w reg template display url c :
  truthy name = true ->
  (get_registry T w).1 = Ok reg ->
  reg !! KStr name = Some template ->
  remote_descriptor template display url ->
  fetch_result w url = None ->
  cache w !! get_cache_path name = Some (CacheText c) ->
  truthy c = true ->
  let rw := install T (Some name) None force no_cache w in
  rw = install_with template c force
         (add_events (cached_events no_cache w name display url) w) /\
  (goes_ahead force w = true -> dest_write_ok w = true -> dest rw.2 = Some c).
Proof.
  intros Hn Hreg Hlook Hremote Hf Hc Ht rw. subst rw.
  rewrite (install_offline_uses_cache T name force no_cache w reg template
             display url c) by auto.
  split; [done|]. intros Hgo Hok.
  by apply install_with_goes_ahead.
Qed.

Lemma fetch_failure_falls_back_to_cache_witness :
  let rw := install sample_TEMPLATES (Some "react") None false true sample_cached in
  rw = install_with sample_react "# React rules v1" false
         (add_events
            (cached_events true sample_cached "react" (JStr "React")
               (JStr sample_url)) sample_cached) /\
  (goes_ahead false sample_cached = true ->
   dest_write_ok sample_cached = true ->
   dest rw.2 = Some "# React rules v1").
Proof.
  apply (fetch_failure_falls_back_to_cache sample_TEMPLATES "react" false true
           sample_cached sample_merged sample_react (JStr "React")
           (JStr sample_url) "# React rules v1").
  - reflexivity.
  - reflexivity.
  - by vm_compute.
  - exact sample_react_remote.
  - reflexivity.
  - by vm_compute.
  - reflexivity.
Defined.

(** C1 as stated fails on an empty cache file: the cached value exists,
    the forced request fails, and [install] ends with
    [typer.Exit(code=1)] instead of going on with the cached text. *)
Lemma empty_cache_fallback_counterexample :
  let w := sample_empty_entry offline in
  let rw := install sample_TEMPLATES (Some "react") None false true w in
  cache w !! get_cache_path "react" = Some (CacheText "") /\
  fetch_result w (JStr sample_url) = None /\
  rw.1 = Raise (Exit 1) /\
  events_since w rw.2 =
    [EvGet REMOTE_REGISTRY_URL; EvPrint (MsgFetching (JStr "React"));
     EvGet sample_url; EvCacheExists "react.cursorrules";
     EvCacheRead "react.cursorrules"; EvPrint MsgFailedToDownloadTemplate] /\
  dest rw.2 = None.
Proof. by vm_compute. Qed.

(** C3, as the code has it: without [--no-cache], a cache file that
    reads as a non-empty text is taken at once.  [install] goes on to the
    write with it; [show] goes on to print it in a panel, which [rich]
    does unless the text is rejected as markup ([MarkupError]).  In both
    commands the only request of the run is the one for the registry. *)
Theorem cache_hit_skips_fetch T name force w reg template display url c :
  truthy name = true ->
  (get_registry T w).1 = Ok reg ->
  reg !! KStr name = Some template ->
  remote_descriptor template display url ->
  cache w !! get_cache_path name = Some (CacheText c) ->
  truthy c = true ->
  let rw := install T (Some name) None force false w in
  let shown := show T name w in
  rw = install_with template c force
         (add_events [EvGet REMOTE_REGISTRY_URL;
                      EvCacheExists (get_cache_path name);
                      EvCacheRead (get_cache_path name);
                      EvPrint (MsgLoadedFromCache display)] w) /\
  List.filter is_fetch (events_since w rw.2) = [EvGet REMOTE_REGISTRY_URL] /\
  shown =
    (if markup_ok w c then
       (Ok tt,
        add_events [EvGet REMOTE_REGISTRY_URL;
                    EvCacheExists (get_cache_path name);
                    EvCacheRead (get_cache_path name);
                    EvPrint MsgShowLoadedFromCache;
                    EvPrint (MsgPanel c display)] w)
     else
       (Raise MarkupError,
        add_events [EvGet REMOTE_REGISTRY_URL;
                    EvCacheExists (get_cache_path name);
                    EvCacheRead (get_cache_path name);
                    EvPrint MsgShowLoadedFromCache] w)) /\
  List.filter is_fetch (events_since w shown.2) = [EvGet REMOTE_REGISTRY_URL].
Proof.
  intros Hn Hreg Hlook Hremote Hc Ht rw shown. subst rw shown.
  rewrite install_name_mode by done.
  rewrite (install_cache_hit T name w reg template display url Hreg Hlook
             Hremote force c Hc Ht).
  split; [done|]. split.
  - destruct (install_with_tail template c force
      [EvGet REMOTE_REGISTRY_URL; EvCacheExists (get_cache_path name);
       EvCacheRead (get_cache_path name); EvPrint (MsgLoadedFromCache display)] w)
      as (evs & -> & Hi & _).
    by rewrite installer_not_fetch_filter.
  - rewrite (show_cache_hit T name w reg template display url Hreg Hlook
               Hremote c Hc Ht).
    rewrite console_print_markup_run.
    destruct (markup_ok w c); (split; [done|]); simpl;
      by rewrite events_since_add.
Qed.

Lemma cache_hit_skips_fetch_witness :
  show sample_TEMPLATES "react" sample_cached =
    (Ok tt,
     add_events [EvGet REMOTE_REGISTRY_URL;
                 EvCacheExists (get_cache_path "react");
                 EvCacheRead (get_cache_path "react");
                 EvPrint MsgShowLoadedFromCache;
                 EvPrint (MsgPanel "# React rules v1" (JStr "React"))]
       sample_cached).
Proof.
  refine (proj1 (proj2 (proj2
    (cache_hit_skips_fetch sample_TEMPLATES "react" false sample_cached
       sample_merged sample_react (JStr "React") (JStr sample_url)
       "# React rules v1" _ _ _ _ _ _)))).
  - reflexivity.
  - reflexivity.
  - by vm_compute.
  - exact sample_react_remote.
  - by vm_compute.
  - reflexivity.
Defined.

(** C3 as stated fails on an empty cache file: the cache entry is there,
    [--no-cache] is not given, and [install] requests the content all the
    same and installs the downloaded text; so does [show]. *)
Lemma empty_cache_hit_counterexample :
  let w := sample_empty_entry online in
  let rw := install sample_TEMPLATES (Some "react") None false false w in
  cache w !! get_cache_path "react" = Some (CacheText "") /\
  List.filter is_fetch (events_since w rw.2) =
    [EvGet REMOTE_REGISTRY_URL; EvGet sample_url] /\
  dest rw.2 = Some "# React rules v1" /\
  List.filter is_fetch (events_since w (show sample_TEMPLATES "react" w).2) =
    [EvGet REMOTE_REGISTRY_URL; EvGet sample_url].
Proof. by vm_compute. Qed.

Lemma fetch_prefix_no_dest_write no_cache w name display url tail :
  List.filter is_dest_write tail = [] ->
  List.filter is_dest_write (fetch_prefix no_cache w name display url ++ tail) = [].
Proof.
  intros Ht. unfold fetch_prefix, cache_probe_events.
  rewrite !List.filter_app, Ht.
  destruct no_cache, url, (cache w !! get_cache_path name); reflexivity.
Qed.

(** C6: when the request for the content of a remote template fails and
    there is no cache file for the key, [install] reads the cache once
    more in vain, prints the download failure and ends with
    [typer.Exit(code=1)]: exit status 1, the destination file neither
    written nor changed.  [show] ends the same way. *)
Theorem fetch_failure_without_cache_fails
    T name force no_cache w reg template display url :
  truthy name = true ->
  (get_registry T w).1 = Ok reg ->
  reg !! KStr name = Some template ->
  remote_descriptor template display url ->
  fetch_result w url = None ->
  cache w !! get_cache_path name = None ->
  let rw := install T (Some name) None force no_cache w in
  rw = (Raise (Exit 1),
        add_events
          (fetch_prefix no_cache w name display url
           ++ [EvCacheExists (get_cache_path name);
               EvPrint MsgFailedToDownloadTemplate]) w) /\
  exit_status rw.1 = 1 /\
  dest rw.2 = dest w /\
  List.filter is_dest_write (events_since w rw.2) = [] /\
  show T name w =
    (Raise (Exit 1),
     add_events
       (show_prefix w name display url ++ [EvPrint MsgFailedToFetchPreview]) w).
Proof.
  intros Hn Hreg Hlook Hremote Hf Hc rw. subst rw.
  assert (cache_misses w name = true) as Hmiss.
  { unfold cache_misses. by rewrite Hc. }
  rewrite install_name_mode by done.
  rewrite (install_fails T name w reg template display url Hreg Hlook Hremote
             force no_cache) by auto.
  assert (cache_probe_events w name = [EvCacheExists (get_cache_path name)]) as ->.
  { unfold cache_probe_events. by rewrite Hc. }
  simpl. rewrite events_since_add. repeat split.
  - by apply fetch_prefix_no_dest_write.
  - by eapply show_fails.
Qed.

Lemma fetch_failure_without_cache_fails_witness :
  let w := sample_world in
  let rw := install sample_TEMPLATES (Some "react") None false false w in
  rw = (Raise (Exit 1),
        add_events
          (fetch_prefix false w "react" (JStr "React") (JStr sample_url)
           ++ [EvCacheExists (get_cache_path "react");
               EvPrint MsgFailedToDownloadTemplate]) w) /\
  exit_status rw.1 = 1 /\
  dest rw.2 = dest w /\
  List.filter is_dest_write (events_since w rw.2) = [] /\
  show sample_TEMPLATES "react" w =
    (Raise (Exit 1),
     add_events
       (show_prefix w "react" (JStr "React") (JStr sample_url)
        ++ [EvPrint MsgFailedToFetchPreview]) w).
Proof.
  apply (fetch_failure_without_cache_fails sample_TEMPLATES "react" false false
           sample_world sample_merged sample_react (JStr "React")
           (JStr sample_url)).
  - reflexivity.
  - reflexivity.
  - by vm_compute.
  - exact sample_react_remote.
  - reflexivity.
  - by vm_compute.
Defined.

(** C8: for a descriptor without ["url"] whose ["content"] is a text,
    [install] goes straight from the registry to the write with that
    text: the run never touches the cache, and where the write goes ahead
    (no file yet, or [force], or the user agrees) and succeeds, the
    destination file holds exactly that text.  [show] goes straight from
    the registry to the panel with that text, which is printed unless
    [rich] rejects the text as markup ([MarkupError]); the cache is not
    touched either way. *)
Theorem inline_template_bypasses_cache
    T name force no_cache w reg template text :
  truthy name = true ->
  (get_registry T w).1 = Ok reg ->
  reg !! KStr name = Some template ->
  inline_descriptor template text ->
  let rw := install T (Some name) None force no_cache w in
  rw = install_with template text force
         (add_events [EvGet REMOTE_REGISTRY_URL] w) /\
  List.filter is_cache_access (events_since w rw.2) = [] /\
  cache rw.2 = cache w /\
  (goes_ahead force w = true -> dest_write_ok w = true ->
   dest rw.2 = Some text) /\
  (forall display,
     py_getitem template "name" = Ok display ->
     show T name w =
       if markup_ok w text then
         (Ok tt,
          add_events [EvGet REMOTE_REGISTRY_URL;
                      EvPrint (MsgPanel text display)] w)
       else
         (Raise MarkupError, add_events [EvGet REMOTE_REGISTRY_URL] w)).
Proof.
  intros Hn Hreg Hlook Hinline rw. subst rw.
  rewrite install_name_mode by done.
  rewrite (install_inline T name force no_cache w reg template text) by done.
  split; [done|].
  destruct (install_with_tail template text force [EvGet REMOTE_REGISTRY_URL] w)
    as (evs & -> & Hi & ->).
  split; [|split; [done|split]].
  - rewrite List.filter_app. simpl.
    by rewrite (forallb_filter_nil _ _ _ installer_not_cache Hi).
  - intros Hgo Hok. by apply install_with_goes_ahead.
  - intros display Hname.
    rewrite (show_inline T name w reg template text display) by done.
    by rewrite console_print_markup_run.
Qed.

Lemma inline_template_bypasses_cache_witness :
  let w := sample_world in
  let rw := install sample_TEMPLATES (Some "python") None false false w in
  rw = install_with
         (JObj [("name", JStr "Python"); ("description", JStr "Python rules");
                ("content", JStr "# Python rules")])
         "# Python rules" false
         (add_events [EvGet REMOTE_REGISTRY_URL] w) /\
  List.filter is_cache_access (events_since w rw.2) = [] /\
  cache rw.2 = cache w /\
  (goes_ahead false w = true -> dest_write_ok w = true ->
   dest rw.2 = Some "# Python rules") /\
  (forall display,
     py_getitem
       (JObj [("name", JStr "Python"); ("description", JStr "Python rules");
              ("content", JStr "# Python rules")]) "name" = Ok display ->
     show sample_TEMPLATES "python" w =
       if markup_ok w "# Python rules" then
         (Ok tt,
          add_events [EvGet REMOTE_REGISTRY_URL;
                      EvPrint (MsgPanel "# Python rules" display)] w)
       else
         (Raise MarkupError, add_events [EvGet REMOTE_REGISTRY_URL] w)).
Proof.
  apply (inline_template_bypasses_cache sample_TEMPLATES "python" false false
           sample_world sample_merged).
  - reflexivity.
  - reflexivity.
  - by vm_compute.
  - by split.
Defined.

Lemma install_with_cache template c force w :
  cache (install_with template c force w).2 = cache w.
Proof.
  assert (run_inv installer_step (install_with template c force)) as H.
  { unfold install_with. repeat run_inv_step. }
  by destruct (H w) as (_ & Hc & _).
Qed.

(** C4, as the code has it: when the request of an [install] or a
    [show] for the content of a remote template succeeds and the cache
    file can be written (the [mkdir] and the write succeed, the key has
    no path separator), the downloaded text is in the cache file of the
    key before the command goes on with it; the file reads back as the
    text with its line endings as LF, which is the text itself when it
    has no carriage return.  When the text is not empty, every later
    [install] or [show] of the key that finds this cache and cannot reach
    the content (or, for [install], is run without [--no-cache]) goes on
    with what the file reads back. *)
Theorem fetched_text_is_cached
    T name force no_cache w reg template display url text :
  truthy name = true ->
  (get_registry T w).1 = Ok reg ->
  reg !! KStr name = Some template ->
  remote_descriptor template display url ->
  no_cache = true \/ cache_misses w name = true ->
  fetch_result w url = Some text ->
  save_succeeds w name = true ->
  let rw := install T (Some name) None force no_cache w in
  let stored := universal_newlines text in
  let cached := <[get_cache_path name := CacheText stored]> (cache w) in
  rw = install_with template text force
         (set_cache cached
            (add_events
               (fetch_prefix no_cache w name display url
                ++ [EvCacheMkdir; EvCacheWrite (get_cache_path name) text]) w)) /\
  cache rw.2 = cached /\
  (has_cr text = false -> stored = text) /\
  (cache_misses w name = true ->
   let saved :=
     set_cache cached
       (add_events
          (show_prefix w name display url
           ++ [EvCacheMkdir; EvCacheWrite (get_cache_path name) text]) w) in
   show T name w =
     if markup_ok w text
     then (Ok tt, add_events [EvPrint (MsgPanel text display)] saved)
     else (Raise MarkupError, saved)) /\
  (truthy text = true ->
   forall T' w' reg' template' display' url' force' no_cache',
     cache w' = cached ->
     (get_registry T' w').1 = Ok reg' ->
     reg' !! KStr name = Some template' ->
     remote_descriptor template' display' url' ->
     no_cache' = false \/ fetch_result w' url' = None ->
     install T' (Some name) None force' no_cache' w' =
       install_with template' stored force'
         (add_events (cached_events no_cache' w' name display' url') w') /\
     show T' name w' =
       if markup_ok w' stored then
         (Ok tt,
          add_events [EvGet REMOTE_REGISTRY_URL;
                      EvCacheExists (get_cache_path name);
                      EvCacheRead (get_cache_path name);
                      EvPrint MsgShowLoadedFromCache;
                      EvPrint (MsgPanel stored display')] w')
       else
         (Raise MarkupError,
          add_events [EvGet REMOTE_REGISTRY_URL;
                      EvCacheExists (get_cache_path name);
                      EvCacheRead (get_cache_path name);
                      EvPrint MsgShowLoadedFromCache] w')).
Proof.
  intros Hn Hreg Hlook Hremote Hreach Hf Hok rw stored cached.
  subst rw stored cached.
  assert (forall pre,
    save_to_cache name text (add_events pre w) =
      (Ok tt,
       set_cache
         (<[get_cache_path name := CacheText (universal_newlines text)]> (cache w))
         (add_events
            (pre ++ [EvCacheMkdir; EvCacheWrite (get_cache_path name) text]) w)))
    as Hsave.
  { intros pre. rewrite save_to_cache_ok by exact Hok. simpl.
    by rewrite add_events_app. }
  assert (install T (Some name) None force no_cache w =
    install_with template text force
      (set_cache
         (<[get_cache_path name := CacheText (universal_newlines text)]> (cache w))
         (add_events
            (fetch_prefix no_cache w name display url
             ++ [EvCacheMkdir; EvCacheWrite (get_cache_path name) text]) w)))
    as Hrun.
  { rewrite install_name_mode by done.
    rewrite (install_fetched T name w reg template display url Hreg Hlook
               Hremote force no_cache text Hreach Hf).
    by rewrite Hsave. }
  split; [exact Hrun|]. split; [|split; [|split]].
  - rewrite Hrun. by rewrite install_with_cache.
  - apply universal_newlines_no_cr.
  - intros Hmiss.
    rewrite (show_fetched T name w reg template display url Hreg Hlook
               Hremote text Hmiss Hf).
    rewrite Hsave. unfold console_print_markup. simpl.
    destruct (markup_ok w text); [|done].
    by rewrite add_event_events.
  - intros Ht T' w' reg' template' display' url' force' no_cache'
      Hcache Hreg' Hlook' Hremote' Hoff.
    assert (cache w' !! get_cache_path name
            = Some (CacheText (universal_newlines text))) as Hc.
    { rewrite Hcache. apply lookup_insert_eq. }
    assert (truthy (universal_newlines text) = true) as Ht'.
    { by rewrite truthy_universal_newlines. }
    split.
    + by eapply install_offline_uses_cache.
    + rewrite (show_cache_hit T' name w' reg' template' display' url' Hreg'
                 Hlook' Hremote' _ Hc Ht').
      by rewrite console_print_markup_run.
Qed.

Lemma fetched_text_is_cached_witness :
  let w := sample_online in
  let rw := install sample_TEMPLATES (Some "react") None false false w in
  cache rw.2 = <[get_cache_path "react" := CacheText "# React rules v1"]> (cache w).
Proof.
  refine (proj1 (proj2
    (fetched_text_is_cached sample_TEMPLATES "react" false false
       sample_online sample_merged sample_react (JStr "React")
       (JStr sample_url) "# React rules v1" _ _ _ _ _ _ _))).
  - reflexivity.
  - reflexivity.
  - by vm_compute.
  - exact sample_react_remote.
  - right. by vm_compute.
  - reflexivity.
  - reflexivity.
Defined.

(** C4 as stated fails when the cache directory cannot be written: the
    request succeeds and the text is installed, nothing is cached, and a
    later [install] of the key that cannot reach the content ends with
    [typer.Exit(code=1)]. *)
Lemma unwritable_cache_counterexample :
  let w := sample_readonly_cache in
  let rw := install sample_TEMPLATES (Some "react") None false false w in
  let later :=
    World (RegistryHttp 200 (Some sample_remote)) offline Declined false true true sample_markup
          (cache rw.2) None [] in
  fetch_result w (JStr sample_url) = Some "# React rules v1" /\
  rw.1 = Ok tt /\
  dest rw.2 = Some "# React rules v1" /\
  cache rw.2 !! get_cache_path "react" = None /\
  (install sample_TEMPLATES (Some "react") None false false later).1
    = Raise (Exit 1).
Proof. by vm_compute. Qed.

(** ** The scenarios of the specification *)

(** [install python] without access to the content: the destination
    file holds exactly the bundled text. *)
Example install_python_offline :
  let w := World RegistryRequestFailed offline Declined true true true sample_markup ∅ None [] in
  let rw := install sample_TEMPLATES (Some "python") None false false w in
  rw.1 = Ok tt /\ dest rw.2 = Some "# Python rules" /\
  events_since w rw.2 =
    [EvGet REMOTE_REGISTRY_URL; EvDestExists; EvDestWrite "# Python rules";
     EvPrint (MsgInitialized "Python")].
Proof. by vm_compute. Qed.

(** [install react] downloads and caches the text; a later [show react]
    that cannot reach the content prints it from the cache. *)
Example install_react_then_show :
  let rw := install sample_TEMPLATES (Some "react") None false false sample_online in
  let later :=
    World (RegistryHttp 200 (Some sample_remote)) offline Declined true true true sample_markup
          (cache rw.2) (dest rw.2) [] in
  rw.1 = Ok tt /\
  dest rw.2 = Some "# React rules v1" /\
  cache rw.2 !! get_cache_path "react" = Some (CacheText "# React rules v1") /\
  show sample_TEMPLATES "react" later =
    (Ok tt,
     add_events [EvGet REMOTE_REGISTRY_URL;
                 EvCacheExists "react.cursorrules";
                 EvCacheRead "react.cursorrules";
                 EvPrint MsgShowLoadedFromCache;
                 EvPrint (MsgPanel "# React rules v1" (JStr "React"))] later).
Proof. by vm_compute. Qed.

(** A cached text with a closing tag that closes nothing is installed
    as it is, but [show] cannot print it: the panel raises
    [MarkupError]. *)
Example show_rejected_markup :
  let w := World (RegistryHttp 200 (Some sample_remote)) offline Declined
                 true true true sample_markup
                 {[ "react.cursorrules" := CacheText "routes: [/api]" ]} None [] in
  dest (install sample_TEMPLATES (Some "react") None false false w).2
    = Some "routes: [/api]" /\
  show sample_TEMPLATES "react" w =
    (Raise MarkupError,
     add_events [EvGet REMOTE_REGISTRY_URL;
                 EvCacheExists "react.cursorrules";
                 EvCacheRead "react.cursorrules";
                 EvPrint MsgShowLoadedFromCache] w).
Proof. by vm_compute. Qed.

(** A template name with such a tag that is not in the registry: the
    "not found" message itself cannot be printed. *)
Example install_rejected_markup_name :
  install sample_TEMPLATES (Some "[/api]") None false false sample_world =
    (Raise MarkupError, add_events [EvGet REMOTE_REGISTRY_URL] sample_world).
Proof. by vm_compute. Qed.

(** A downloaded text with CRLF line endings is installed as it is and
    read back from the cache with LF line endings. *)
Example install_crlf_then_cached :
  let text := "# rules" +:+ String CR (String LF "use tabs") in
  let w := World (RegistryHttp 200 (Some sample_remote)) (fun _ => Http 200 text)
                 Declined true true true sample_markup ∅ None [] in
  let rw := install sample_TEMPLATES (Some "react") None false false w in
  dest rw.2 = Some text /\
  (load_from_cache "react" rw.2).1 = Ok (Some ("# rules" +:+ String LF "use tabs")).
Proof. by vm_compute. Qed.

(** ** The cache store on its own *)

Lemma load_from_cache_undecodable name w :
  cache w !! get_cache_path name = Some CacheBadUtf8 ->
  load_from_cache name w =
    (Raise ValueError,
     add_events [EvCacheExists (get_cache_path name);
                 EvCacheRead (get_cache_path name)] w).
Proof.
  intros H. unfold load_from_cache, bind, cache_exists, try_except, cache_read_text.
  simpl. rewrite H. simpl. rewrite H. simpl. world_eq.
Qed.


(** X2: when [save_to_cache] can write the cache file (the [mkdir] and
    the write succeed, the name has no path separator),
    [load_from_cache] reads back for the same name what was stored with
    its line endings as LF, whatever the cache file was before (absent,
    unreadable, undecodable) and also for the empty text; a text without
    carriage return is read back as it is. *)
Theorem save_then_load_round_trip name content w :
  save_succeeds w name = true ->
  let read := (load_from_cache name (save_to_cache name content w).2).1 in
  read = Ok (Some (universal_newlines content)) /\
  (has_cr content = false -> read = Ok (Some content)).
Proof.
  intros Hok read. subst read. rewrite save_to_cache_ok by done. simpl.
  erewrite load_from_cache_text by (simpl; apply lookup_insert_eq). simpl.
  split; [done|]. intros H. by rewrite universal_newlines_no_cr.
Qed.

Lemma save_then_load_round_trip_witness :
  let content := "# rules" +:+ String CR (String LF "use tabs") in
  let read :=
    (load_from_cache "react"
       (save_to_cache "react" content sample_undecodable).2).1 in
  read = Ok (Some ("# rules" +:+ String LF "use tabs")) /\
  (has_cr content = false -> read = Ok (Some content)).
Proof.
  apply (save_then_load_round_trip "react"
           ("# rules" +:+ String CR (String LF "use tabs")) sample_undecodable).
  reflexivity.
Defined.


(** X4: [download_from_url] makes one request and nothing else; it
    returns the body for every status below 400 or from 600 on, and
    raises [RequestException] for the statuses 400 to 599. *)
Theorem download_from_url_status_bounds u status text w :
  net w u = Http status text ->
  let rw := download_from_url (JStr u) w in
  rw.2 = add_events [EvGet u] w /\
  (status < 400 \/ 600 <= status -> rw.1 = Ok text) /\
  (400 <= status < 600 -> rw.1 = Raise RequestException).
Proof.
  intros Hnet rw. subst rw. rewrite download_from_url_run.
  unfold fetch_result, raises_for_status. rewrite Hnet. simpl.
  split; [done|]. split.
  - intros Hs.
    destruct (400 <=? status) eqn:H4, (status <? 600) eqn:H6; simpl; try done.
    apply Z.leb_le in H4. apply Z.ltb_lt in H6. lia.
  - intros [H4 H6].
    apply Z.leb_le in H4. apply Z.ltb_lt in H6. by rewrite H4, H6.
Qed.

Lemma download_from_url_status_bounds_witness :
  let rw := download_from_url (JStr sample_url) sample_online in
  rw.2 = add_events [EvGet sample_url] sample_online /\
  (200 < 400 \/ 600 <= 200 -> rw.1 = Ok "# React rules v1") /\
  (400 <= 200 < 600 -> rw.1 = Raise RequestException).
Proof.
  apply (download_from_url_status_bounds sample_url 200 "# React rules v1"
           sample_online).
  reflexivity.
Defined.

(** ** The installer on its own *)

Lemma write_cursorrules_unasked content force w :
  dest w = None \/ force = true ->
  write_cursorrules content force w =
    match content with
    | JStr s =>
        if dest_write_ok w then
          (Ok tt, set_dest (Some s) (add_events [EvDestExists; EvDestWrite s] w))
        else
          (Raise (Exit 1),
           add_events [EvDestExists; EvDestWrite s; EvPrint MsgWriteError] w)
    | _ => (Raise TypeError, add_events [EvDestExists] w)
    end.
Proof.
  intros Hfree.
  unfold write_cursorrules, bind, dest_exists, try_except, dest_write_text,
    console_print, emit, raise, ret.
  simpl.
  assert (bool_decide (is_Some (dest w)) && negb force = false) as ->.
  { destruct Hfree as [-> | ->]; [done|]. by rewrite andb_false_r. }
  destruct content; simpl; try world_eq.
  destruct (dest_write_ok w); simpl; world_eq.
Qed.

(** X5: with [force] and a destination that can be written,
    [write_cursorrules] never asks and replaces the file: doing it twice
    with the same text gives the same file as doing it once, whatever the
    file held before. *)
Theorem force_overwrite_is_idempotent c w :
  dest_write_ok w = true ->
  let rw1 := write_cursorrules (JStr c) true w in
  let rw2 := write_cursorrules (JStr c) true rw1.2 in
  rw1.1 = Ok tt /\ dest rw1.2 = Some c /\
  rw2.1 = Ok tt /\ dest rw2.2 = Some c /\
  events_since w rw2.2 =
    [EvDestExists; EvDestWrite c; EvDestExists; EvDestWrite c].
Proof.
  intros Hok rw1 rw2. subst rw1 rw2.
  rewrite (write_cursorrules_unasked (JStr c) true w) by auto.
  rewrite Hok. simpl.
  rewrite write_cursorrules_unasked by auto. simpl. rewrite Hok. simpl.
  repeat split; try done.
  unfold events_since. simpl. rewrite <- app_assoc. by rewrite drop_app_length.
Qed.

Lemma force_overwrite_is_idempotent_witness :
  let rw1 := write_cursorrules (JStr "# Python rules") true sample_existing in
  let rw2 := write_cursorrules (JStr "# Python rules") true rw1.2 in
  rw1.1 = Ok tt /\ dest rw1.2 = Some "# Python rules" /\
  rw2.1 = Ok tt /\ dest rw2.2 = Some "# Python rules" /\
  events_since sample_existing rw2.2 =
    [EvDestExists; EvDestWrite "# Python rules";
     EvDestExists; EvDestWrite "# Python rules"].
Proof.
  apply (force_overwrite_is_idempotent "# Python rules" sample_existing).
  reflexivity.
Defined.

(** ** What the commands never do *)

Lemma run_inv_weaken {A} (I J : world -> world -> Prop) (m : M A) :
  (forall w w', I w w' -> J w w') -> run_inv I m -> run_inv J m.
Proof. intros HIJ Hm w. apply HIJ, Hm. Qed.

Lemma only_weaken (P Q : event -> bool) w w' :
  (forall e, P e = true -> Q e = true) -> only P w w' -> only Q w w'.
Proof.
  intros HPQ (evs & Hl & Hp). exists evs. split; [done|].
  apply forallb_forall. intros e He.
  apply HPQ. by eapply forallb_forall in Hp.
Qed.

#[global] Instance dest_untouched_step_refl : Reflexive dest_untouched_step.
Proof. intros w. repeat split; auto using only_refl. Qed.

#[global] Instance dest_untouched_step_trans : Transitive dest_untouched_step.
Proof.
  intros w1 w2 w3 (E1 & D1 & O1) (E2 & D2 & O2). split; [|split].
  - eapply same_env_trans; eauto.
  - congruence.
  - eapply only_trans; eauto.
Qed.

#[global] Instance unprompted_step_refl : Reflexive unprompted_step.
Proof. intros w. apply only_refl. Qed.

#[global] Instance unprompted_step_trans : Transitive unprompted_step.
Proof. intros w1 w2 w3. apply only_trans. Qed.

Lemma unreachable_same_env w w' : same_env w w' -> unreachable w -> unreachable w'.
Proof.
  intros (_ & Hnet & _) Hu u. specialize (Hu u).
  unfold fetch_result in *. by rewrite Hnet.
Qed.

#[global] Instance offline_step_refl : Reflexive offline_step.
Proof. intros w. split; [apply same_env_refl|done]. Qed.

#[global] Instance offline_step_trans : Transitive offline_step.
Proof.
  intros w1 w2 w3 (E1 & C1) (E2 & C2). split.
  - eapply same_env_trans; eauto.
  - intros Hu. rewrite C2, C1; eauto using unreachable_same_env.
Qed.

Lemma dest_untouched_add_event e w :
  not_dest_event e = true -> dest_untouched_step w (add_event e w).
Proof.
  intros H. repeat split. exists [e]. split; [done|]. simpl. by rewrite H.
Qed.

(** *** Steps that do not look at the destination file *)

Lemma untouched_console_print m : run_inv dest_untouched_step (console_print m).
Proof. intros w. by apply dest_untouched_add_event. Qed.
#[global] Hint Resolve untouched_console_print : run_inv.

Lemma untouched_cache_exists path : run_inv dest_untouched_step (cache_exists path).
Proof. intros w. by apply dest_untouched_add_event. Qed.
#[global] Hint Resolve untouched_cache_exists : run_inv.

Lemma untouched_cache_read_text path :
  run_inv dest_untouched_step (cache_read_text path).
Proof.
  intros w. unfold cache_read_text.
  destruct (cache w !! path) as [[]|]; by apply dest_untouched_add_event.
Qed.
#[global] Hint Resolve untouched_cache_read_text : run_inv.

Lemma untouched_console_print_markup text m :
  run_inv dest_untouched_step (console_print_markup text m).
Proof.
  intros w. unfold console_print_markup.
  destruct (markup_ok w text); simpl; [by apply dest_untouched_add_event|].
  reflexivity.
Qed.
#[global] Hint Resolve untouched_console_print_markup : run_inv.

Lemma untouched_ensure_cache_dir : run_inv dest_untouched_step ensure_cache_dir.
Proof.
  intros w. unfold ensure_cache_dir.
  destruct (cache_dir_ok w); by apply dest_untouched_add_event.
Qed.
#[global] Hint Resolve untouched_ensure_cache_dir : run_inv.

Lemma untouched_cache_write_text path content :
  run_inv dest_untouched_step (cache_write_text path content).
Proof.
  intros w. unfold cache_write_text.
  destruct (cache_write_ok w && negb (has_separator path)); simpl.
  - repeat split. by exists [EvCacheWrite path content].
  - by apply dest_untouched_add_event.
Qed.
#[global] Hint Resolve untouched_cache_write_text : run_inv.

Lemma untouched_load_from_cache name :
  run_inv dest_untouched_step (load_from_cache name).
Proof. unfold load_from_cache. repeat run_inv_step. Qed.
#[global] Hint Resolve untouched_load_from_cache : run_inv.

Lemma untouched_save_to_cache name content :
  run_inv dest_untouched_step (save_to_cache name content).
Proof. unfold save_to_cache. repeat run_inv_step. Qed.
#[global] Hint Resolve untouched_save_to_cache : run_inv.

Lemma untouched_download_from_url url :
  run_inv dest_untouched_step (download_from_url url).
Proof.
  intros w. rewrite download_from_url_run. simpl.
  repeat split. exists (fetch_events url). split; [done|]. by destruct url.
Qed.
#[global] Hint Resolve untouched_download_from_url : run_inv.

Lemma untouched_get_registry T : run_inv dest_untouched_step (get_registry T).
Proof.
  intros w. rewrite get_registry_world. by apply dest_untouched_add_event.
Qed.
#[global] Hint Resolve untouched_get_registry : run_inv.

Lemma untouched_template_not_found name reg :
  run_inv dest_untouched_step (template_not_found name reg).
Proof. unfold template_not_found. repeat run_inv_step. Qed.
#[global] Hint Resolve untouched_template_not_found : run_inv.

Lemma not_dest_event_filter evs :
  forallb not_dest_event evs = true -> List.filter is_dest_event evs = [].
Proof.
  apply forallb_filter_nil. intros e. unfold not_dest_event.
  by destruct (is_dest_event e).
Qed.


Lemma quiet_unprompted w w' : quiet_step w w' -> unprompted_step w w'.
Proof.
  intros (_ & _ & Ho). eapply only_weaken; [|exact Ho]. by intros [].
Qed.

Lemma unprompted_of_quiet {A} (m : M A) :
  run_inv quiet_step m -> run_inv unprompted_step m.
Proof. apply run_inv_weaken, quiet_unprompted. Qed.

Lemma unprompted_write_cursorrules content :
  run_inv unprompted_step (write_cursorrules content true).
Proof.
  intros w. rewrite write_cursorrules_unasked by auto.
  destruct content; try destruct (dest_write_ok w); simpl;
    by eexists; split; [reflexivity|].
Qed.

Lemma unprompted_install T name url no_cache :
  run_inv unprompted_step (install T name url true no_cache).
Proof.
  unfold install.
  destruct (truthy_opt url && truthy_opt name).
  { apply unprompted_of_quiet. repeat run_inv_step. }
  destruct (negb (truthy_opt url) && negb (truthy_opt name)).
  { apply unprompted_of_quiet. repeat run_inv_step. }
  destruct (if_truthy url) as [u|].
  - unfold install_from_url.
    apply run_inv_bind; try tc_solve;
      [apply unprompted_of_quiet; repeat run_inv_step|intros _].
    apply run_inv_bind; try tc_solve;
      [apply unprompted_of_quiet; repeat run_inv_step|intros content].
    apply run_inv_bind; try tc_solve;
      [apply unprompted_write_cursorrules|intros _].
    apply unprompted_of_quiet. repeat run_inv_step.
  - unfold install_by_name.
    apply run_inv_bind; try tc_solve;
      [apply unprompted_of_quiet; repeat run_inv_step|intros reg].
    destruct (reg !! KStr (default "" name)) as [template|];
      [|apply unprompted_of_quiet; repeat run_inv_step].
    apply run_inv_bind; try tc_solve;
      [apply unprompted_of_quiet; repeat run_inv_step|intros has_url].
    apply run_inv_bind; try tc_solve;
      [apply unprompted_of_quiet; repeat run_inv_step|intros content].
    apply run_inv_bind; try tc_solve;
      [apply unprompted_write_cursorrules|intros _].
    apply unprompted_of_quiet. repeat run_inv_step.
Qed.

(** X7: with [--force], [install] never asks for confirmation: no run
    contains the prompt, whatever the arguments and the state of the
    destination file. *)
Theorem force_never_prompts T name url no_cache w :
  List.filter is_confirm
    (events_since w (install T name url true no_cache w).2) = [].
Proof.
  pose proof (unprompted_install T name url no_cache w) as H.
  apply only_events_since in H.
  eapply forallb_filter_nil; [|exact H].
  intros e. unfold not_confirm. by destruct (is_confirm e).
Qed.

(** *** Steps that keep the cache when nothing can be downloaded *)

Lemma offline_of_installer {A} (m : M A) :
  run_inv installer_step m -> run_inv offline_step m.
Proof.
  apply run_inv_weaken. intros w w' (He & Hc & _). by split.
Qed.

Lemma offline_step_add_event e w : offline_step w (add_event e w).
Proof. split; [by repeat split|done]. Qed.

Lemma offline_console_print m : run_inv offline_step (console_print m).
Proof. intros w. apply offline_step_add_event. Qed.
#[global] Hint Resolve offline_console_print : run_inv.

Lemma offline_console_print_markup text m :
  run_inv offline_step (console_print_markup text m).
Proof.
  intros w. unfold console_print_markup.
  destruct (markup_ok w text); simpl; [apply offline_step_add_event|].
  reflexivity.
Qed.
#[global] Hint Resolve offline_console_print_markup : run_inv.

Lemma offline_get_registry T : run_inv offline_step (get_registry T).
Proof. intros w. rewrite get_registry_world. apply offline_step_add_event. Qed.
#[global] Hint Resolve offline_get_registry : run_inv.

Lemma offline_load_from_cache name : run_inv offline_step (load_from_cache name).
Proof.
  intros w.
  destruct (cache w !! get_cache_path name) as [[s| |]|] eqn:Hc.
  - rewrite (load_from_cache_text name s w Hc). by split.
  - rewrite (load_from_cache_oserror name w Hc). by split.
  - rewrite (load_from_cache_undecodable name w Hc). by split.
  - rewrite (load_from_cache_absent name w Hc). by split.
Qed.
#[global] Hint Resolve offline_load_from_cache : run_inv.

Lemma offline_template_not_found name reg :
  run_inv offline_step (template_not_found name reg).
Proof. unfold template_not_found. repeat run_inv_step. Qed.
#[global] Hint Resolve offline_template_not_found : run_inv.

Lemma offline_write_cursorrules content force :
  run_inv offline_step (write_cursorrules content force).
Proof. apply offline_of_installer. repeat run_inv_step. Qed.
#[global] Hint Resolve offline_write_cursorrules : run_inv.

Lemma offline_install_success template :
  run_inv offline_step (install_success template).
Proof. apply offline_of_installer. repeat run_inv_step. Qed.
#[global] Hint Resolve offline_install_success : run_inv.

Lemma unreachable_any w url : unreachable w -> fetch_result w url = None.
Proof. intros Hu. destruct url; first [done | apply Hu]. Qed.

(** The [try] block of a remote template: without a download there is
    nothing to save. *)
Lemma offline_fetch_block name (url : result json) :
  run_inv offline_step
    (url <- lift url ;;
     content <- download_from_url url ;;
     save_to_cache name content ;;
     ret (JStr content)).
Proof.
  intros w. split.
  - assert (run_inv quiet_step
      (url <- lift url ;;
       content <- download_from_url url ;;
       save_to_cache name content ;;
       ret (JStr content))) as H by repeat run_inv_step.
    apply H.
  - intros Hu. destruct url as [url|e]; [|done].
    rewrite bind_lift_ok.
    by erewrite bind_raise
      by (apply download_from_url_fails, unreachable_any, Hu).
Qed.
#[global] Hint Resolve offline_fetch_block : run_inv.

Lemma offline_download_from_url url : run_inv offline_step (download_from_url url).
Proof.
  intros w. rewrite download_from_url_run. by split.
Qed.
#[global] Hint Resolve offline_download_from_url : run_inv.

Lemma offline_install T name url force no_cache :
  run_inv offline_step (install T name url force no_cache).
Proof.
  unfold install, install_from_url, install_by_name. repeat run_inv_step.
Qed.

Lemma offline_show T name : run_inv offline_step (show T name).
Proof. unfold show. repeat run_inv_step. Qed.

(** X8: the cache is only ever changed after a successful download:
    when no content can be downloaded (every request fails or comes back
    with a 4xx or 5xx status), [install] and [show] leave the cache
    exactly as it was, whatever their arguments, the registry and the
    descriptors are. *)
Theorem no_download_no_cache_change T name url force no_cache shown w :
  unreachable w ->
  cache (install T name url force no_cache w).2 = cache w /\
  cache (show T shown w).2 = cache w.
Proof.
  intros Hu. split.
  - by apply (offline_install T name url force no_cache w).
  - by apply (offline_show T shown w).
Qed.

Lemma no_download_no_cache_change_witness :
  cache (install sample_TEMPLATES (Some "react") None false true sample_cached).2
    = cache sample_cached /\
  cache (show sample_TEMPLATES "react" sample_cached).2 = cache sample_cached.
Proof.
  apply (no_download_no_cache_change sample_TEMPLATES (Some "react") None false
           true "react" sample_cached).
  intros u. reflexivity.
Defined.

(** ** The exceptions that come out *)

Lemma raises_in_weaken {A} (S S' : exn -> bool) (m : M A) :
  raises_in S m -> (forall e, S e = true -> S' e = true) -> raises_in S' m.
Proof. intros Hm HS w e He. eapply HS, Hm, He. Qed.

Lemma raises_in_ret {A} S (a : A) : raises_in S (ret a).
Proof. by intros w e. Qed.

Lemma raises_in_raise {A} S e : S e = true -> raises_in S (@raise A e).
Proof. intros He w e' [= <-]. exact He. Qed.

Lemma raises_in_lift {A} S (r : result A) :
  (forall e, r = Raise e -> S e = true) -> raises_in S (lift r).
Proof. intros Hr w e He. by apply Hr. Qed.

Lemma raises_in_bind {A B} S (m : M A) (k : A -> M B) :
  raises_in S m -> (forall a, raises_in S (k a)) -> raises_in S (bind m k).
Proof.
  intros Hm Hk w e. unfold bind. specialize (Hm w).
  destruct (m w) as [[a|e'] w1]; simpl in *.
  - apply Hk.
  - intros [= <-]. by apply Hm.
Qed.

Lemma raises_in_try_except {A} S S' (m h : M A) handles :
  raises_in S' m ->
  (forall e, S' e = true -> handles e = false -> S e = true) ->
  raises_in S h ->
  raises_in S (try_except m handles h).
Proof.
  intros Hm Hs Hh w e. unfold try_except. specialize (Hm w).
  destruct (m w) as [[a|e'] w1]; simpl in *; [done|].
  destruct (handles e') eqn:He'.
  - apply Hh.
  - intros [= <-]. apply Hs; [by apply Hm|done].
Qed.

Lemma raises_console_print m : raises_in no_exception (console_print m).
Proof. by intros w e. Qed.

Lemma raises_console_print_markup text m :
  raises_in is_MarkupError (console_print_markup text m).
Proof.
  intros w e. unfold console_print_markup.
  destruct (markup_ok w text); [done|]. by intros [= <-].
Qed.

Lemma raises_load_from_cache name : raises_in is_ValueError (load_from_cache name).
Proof.
  intros w e.
  destruct (cache w !! get_cache_path name) as [[s| |]|] eqn:Hc.
  - by rewrite (load_from_cache_text name s w Hc).
  - by rewrite (load_from_cache_oserror name w Hc).
  - rewrite (load_from_cache_undecodable name w Hc). by intros [= <-].
  - by rewrite (load_from_cache_absent name w Hc).
Qed.

Lemma raises_save_to_cache name content :
  raises_in no_exception (save_to_cache name content).
Proof.
  intros w e. destruct (save_succeeds w name) eqn:Hok.
  - by rewrite save_to_cache_ok.
  - by rewrite save_to_cache_failed.
Qed.

Lemma raises_download_from_url url :
  raises_in is_RequestException (download_from_url url).
Proof.
  intros w e. rewrite download_from_url_run. simpl.
  destruct (fetch_result w url); [done|]. by intros [= <-].
Qed.

Lemma merge_from_seq2_raises d items d' e :
  merge_from_seq2 d items = (d', Some e) -> e = TypeError \/ e = ValueError.
Proof.
  revert d. induction items as [|item rest IH]; intros d; simpl; [done|].
  destruct (seq_of_item item) as [l|e'] eqn:Hi.
  - destruct l as [|k [|v [|x l]]]; try (intros [= _ <-]; by right).
    destruct (hashable k); [apply IH|]. intros [= _ <-]. by left.
  - intros [= _ <-]. destruct item; simpl in Hi; try done;
      injection Hi as <-; by left.
Qed.

Lemma dict_update_raises d other d' e :
  dict_update d other = (d', Some e) -> e = TypeError \/ e = ValueError.
Proof.
  destruct other; simpl; try (intros [= _ <-]; by left);
    first [apply merge_from_seq2_raises | done].
Qed.

Lemma raises_get_registry T : raises_in is_TypeError (get_registry T).
Proof.
  intros w e. unfold get_registry.
  destruct (get_registry_try T (registry_response w)) as [reg [e'|]] eqn:Ht;
    [|done].
  destruct (get_registry_handles e') eqn:Hh; [done|]. simpl. intros [= <-].
  unfold get_registry_try in Ht.
  destruct (registry_response w) as [|status body]; [by injection Ht as _ <-|].
  destruct (raises_for_status status); [by injection Ht as _ <-|].
  destruct body as [data|]; [|by injection Ht as _ <-].
  destruct data as [| | | | |members]; try done.
  destruct (dict_has "templates" members); [|done].
  simpl in Ht. destruct (dict_get "templates" members) as [remote|].
  - apply dict_update_raises in Ht as [->| ->]; done.
  - by injection Ht as _ <-.
Qed.

Lemma py_getitem_raises v s e : py_getitem v s = Raise e -> is_lookup_error e = true.
Proof.
  destruct v; simpl; try (by intros [= <-]).
  destruct (dict_get s members); [done|]. by intros [= <-].
Qed.

Lemma py_contains_raises s v e : py_contains s v = Raise e -> is_TypeError e = true.
Proof. destruct v; simpl; try done; by intros [= <-]. Qed.

Lemma raises_py_getitem v s : raises_in is_lookup_error (lift (py_getitem v s)).
Proof. apply raises_in_lift, py_getitem_raises. Qed.

Lemma raises_py_contains s v : raises_in is_TypeError (lift (py_contains s v)).
Proof. apply raises_in_lift, py_contains_raises. Qed.

Lemma raises_sorted_keys reg : raises_in is_TypeError (lift (sorted_keys reg)).
Proof.
  apply raises_in_lift. unfold sorted_keys. intros e.
  destruct (sortable _); [done|]. by intros [= <-].
Qed.

Lemma raises_text_append v : raises_in is_TypeError (text_append v).
Proof. destruct v; simpl; try (by apply raises_in_raise). apply raises_in_ret. Qed.

Lemma raises_write_cursorrules content force :
  raises_in installer_exception (write_cursorrules content force).
Proof.
  intros w e.
  destruct (dest w) as [old|] eqn:Hd; [destruct force|].
  - rewrite write_cursorrules_unasked by auto.
    destruct content; try destruct (dest_write_ok w); simpl; try done;
      by intros [= <-].
  - rewrite (write_cursorrules_existing content old w Hd).
    destruct (confirm_answer w); [destruct content; try destruct (dest_write_ok w)| |];
      simpl; try done; by intros [= <-].
  - rewrite write_cursorrules_unasked by auto.
    destruct content; try destruct (dest_write_ok w); simpl; try done;
      by intros [= <-].
Qed.

Create HintDb raises.
#[global] Hint Resolve raises_console_print raises_console_print_markup
  raises_load_from_cache
  raises_save_to_cache raises_download_from_url raises_get_registry
  raises_py_getitem raises_py_contains raises_sorted_keys raises_text_append
  raises_write_cursorrules : raises.

(** A leaf is settled by its own lemma, whose exceptions are among the
    ones wanted. *)
Ltac raises_leaf :=
  eapply raises_in_weaken;
  [solve [auto 1 with raises nocore] | by intros []].

Ltac raises_step :=
  first
    [ raises_leaf
    | apply raises_in_ret
    | apply raises_in_raise; reflexivity
    | apply raises_in_bind; [ | intros ?]
    | match goal with
      | |- raises_in _ (match ?x with _ => _ end) => destruct x
      | |- raises_in _ (if ?x then _ else _) => destruct x
      end ].

Lemma raises_install_from_url S u force :
  (forall e, installer_exception e = true -> S e = true) ->
  S (Exit 1) = true ->
  raises_in S (install_from_url u force).
Proof.
  intros HS H1. unfold install_from_url.
  apply raises_in_bind; [raises_leaf|intros _].
  apply raises_in_bind; [|intros content].
  - eapply (raises_in_try_except _ is_RequestException).
    + apply raises_download_from_url.
    + by intros e ->.
    + apply raises_in_bind; [raises_leaf|intros _]. by apply raises_in_raise.
  - apply raises_in_bind; [|intros _; raises_leaf].
    eapply raises_in_weaken; [apply raises_write_cursorrules|exact HS].
Qed.

Lemma raises_fetch_block name template :
  raises_in fetch_exception
    (url <- lift (py_getitem template "url") ;;
     content <- download_from_url url ;;
     save_to_cache name content ;;
     ret (JStr content)).
Proof. repeat raises_step. Qed.

Lemma raises_template_not_found name reg :
  raises_in resolve_exception (template_not_found name reg).
Proof. unfold template_not_found. repeat raises_step. Qed.

Lemma raises_install_success template :
  raises_in resolve_exception (install_success template).
Proof. unfold install_success. repeat raises_step. Qed.

Lemma raises_resolve name template no_cache (has_url : bool) :
  raises_in resolve_exception
    (if has_url then
       content <-
         (if negb no_cache then
            cached_content <- load_from_cache name ;;
            match if_truthy cached_content with
            | Some c =>
                display <- lift (py_getitem template "name") ;;
                console_print (MsgLoadedFromCache display) ;;
                ret (Some c)
            | None => ret None
            end
          else ret None) ;;
       match content with
       | Some c => ret (JStr c)
       | None =>
           display <- lift (py_getitem template "name") ;;
           console_print (MsgFetching display) ;;
           try_except
             (url <- lift (py_getitem template "url") ;;
              content <- download_from_url url ;;
              save_to_cache name content ;;
              ret (JStr content))
             is_RequestException
             (cached_content <- load_from_cache name ;;
              match if_truthy cached_content with
              | Some c =>
                  console_print MsgNetworkErrorUsingCached ;;
                  ret (JStr c)
              | None =>
                  console_print MsgFailedToDownloadTemplate ;;
                  raise (Exit 1)
              end)
       end
     else lift (py_getitem template "content")).
Proof.
  destruct has_url; [|raises_leaf].
  apply raises_in_bind; [repeat raises_step|intros content].
  destruct content as [c|]; [apply raises_in_ret|].
  apply raises_in_bind; [raises_leaf|intros display].
  apply raises_in_bind; [raises_leaf|intros _].
  eapply (raises_in_try_except _ fetch_exception).
  - apply raises_fetch_block.
  - by intros [].
  - repeat raises_step.
Qed.

Lemma resolve_exception_install e :
  resolve_exception e = true -> install_exception e = true.
Proof. destruct e; simpl; try done. intros ->. by rewrite orb_true_r. Qed.

Lemma resolve_exception_not_exit_zero e :
  resolve_exception e = true -> not_exit_zero e = true.
Proof. destruct e; simpl; try done. by intros ->%Z.eqb_eq. Qed.

Lemma raises_install T name url force no_cache :
  raises_in install_exception (install T name url force no_cache).
Proof.
  unfold install.
  destruct (truthy_opt url && truthy_opt name); [repeat raises_step|].
  destruct (negb (truthy_opt url) && negb (truthy_opt name));
    [repeat raises_step|].
  destruct (if_truthy url) as [u|];
    [apply raises_install_from_url; [by intros []|done]|].
  unfold install_by_name.
  apply raises_in_bind; [raises_leaf|intros reg].
  destruct (reg !! KStr (default "" name)) as [template|].
  2:{ eapply raises_in_weaken;
        [apply raises_template_not_found|apply resolve_exception_install]. }
  apply raises_in_bind; [raises_leaf|intros has_url].
  apply raises_in_bind; [|intros content].
  { eapply raises_in_weaken;
      [apply raises_resolve|apply resolve_exception_install]. }
  apply raises_in_bind; [raises_leaf|intros _].
  eapply raises_in_weaken;
    [apply raises_install_success|apply resolve_exception_install].
Qed.

(** X9: no exception of [requests] comes out of [install]: a failed
    request is absorbed or turned into [typer.Exit]; and [typer.Exit]
    comes out of it with code 0 or 1 only.  The exit status of the
    process is therefore 0 or 1. *)
Theorem install_never_leaks_request_errors T name url force no_cache w :
  let r := (install T name url force no_cache w).1 in
  r <> Raise RequestException /\
  (forall code, r = Raise (Exit code) -> code = 0 \/ code = 1) /\
  (exit_status r = 0 \/ exit_status r = 1).
Proof.
  intros r. subst r.
  pose proof (raises_install T name url force no_cache w) as H.
  destruct (install T name url force no_cache w) as [[[]|e] w']; simpl in *.
  - repeat split; try done. by left.
  - specialize (H e eq_refl).
    assert (forall code, e = Exit code -> code = 0 \/ code = 1) as Hcode.
    { intros code ->. simpl in H.
      apply orb_true_iff in H as [->%Z.eqb_eq | ->%Z.eqb_eq]; auto. }
    repeat split.
    + intros [= ->]. done.
    + intros code [= ->]. by apply Hcode.
    + destruct e as [| | | | | | |c|]; simpl; auto.
Qed.

Lemma dict_merge_keeps d members k :
  is_Some (d !! k) -> is_Some (dict_merge d members !! k).
Proof.
  unfold dict_merge. revert d.
  induction members as [|[k' v] rest IH]; intros d Hk; simpl; [done|].
  apply IH. rewrite lookup_insert_is_Some. destruct (decide (KStr k' = k)); auto.
Qed.

Lemma merge_from_seq2_keeps d items k :
  is_Some (d !! k) -> is_Some ((merge_from_seq2 d items).1 !! k).
Proof.
  revert d. induction items as [|item rest IH]; intros d Hk; simpl; [done|].
  destruct (seq_of_item item) as [[|x [|v [|y l]]]|e]; try done.
  destruct (hashable x) as [key|]; [|done].
  apply IH. rewrite lookup_insert_is_Some. destruct (decide (key = k)); auto.
Qed.

Lemma dict_update_keeps d other k :
  is_Some (d !! k) -> is_Some ((dict_update d other).1 !! k).
Proof.
  intros Hk. destruct other; simpl; try done;
    auto using dict_merge_keeps, merge_from_seq2_keeps.
Qed.

Lemma get_registry_try_keeps T r k :
  is_Some (T !! k) -> is_Some ((get_registry_try T r).1 !! k).
Proof.
  intros Hk. unfold get_registry_try.
  destruct r as [|status body]; [done|].
  destruct (raises_for_status status); [done|].
  destruct body as [data|]; [|done].
  destruct data as [| | | | |members]; try done.
  destruct (dict_has "templates" members); [|done].
  simpl. destruct (dict_get "templates" members); [|done].
  by apply dict_update_keeps.
Qed.

(** X10: whatever the remote answers, the only effect of
    [get_registry] is the one request for [REMOTE_REGISTRY_URL] (no
    access to the cache or to the destination file, nothing printed), and
    the only exception that can come out of it is [TypeError]. *)
Theorem get_registry_one_request_only T w :
  (get_registry T w).2 = add_events [EvGet REMOTE_REGISTRY_URL] w /\
  (forall e, (get_registry T w).1 = Raise e -> e = TypeError).
Proof.
  split; [apply get_registry_world|].
  intros e He. apply (raises_get_registry T w) in He. by destruct e.
Qed.

(** X11: the overlay never removes a template: every key of the bundled
    mapping is a key of the registry that [get_registry] returns,
    whatever the remote document is. *)
Theorem get_registry_keeps_bundled_keys T w reg k :
  (get_registry T w).1 = Ok reg ->
  is_Some (T !! k) ->
  is_Some (reg !! k).
Proof.
  intros Hreg Hk. pose proof (get_registry_try_keeps T (registry_response w) k Hk) as H.
  unfold get_registry in Hreg.
  destruct (get_registry_try T (registry_response w)) as [reg' [e|]];
    simpl in *.
  - destruct (get_registry_handles e); [|done]. by injection Hreg as <-.
  - by injection Hreg as <-.
Qed.

Lemma get_registry_keeps_bundled_keys_witness :
  is_Some (sample_merged !! KStr "python").
Proof.
  apply (get_registry_keeps_bundled_keys sample_TEMPLATES sample_world
           sample_merged (KStr "python")).
  - reflexivity.
  - unfold is_Some. eexists. by vm_compute.
Defined.

(** ** What the outcome of [install] tells *)

Lemma honest_raise e : not_exit_zero e = true -> honest_cmd (raise e).
Proof.
  intros He w0 w1 _. split; simpl; [done|].
  intros [= ->]. done.
Qed.

Lemma honest_bind {A} (m : M A) (k : A -> M unit) :
  run_inv quiet_step m ->
  raises_in not_exit_zero m ->
  (forall a, honest_cmd (k a)) ->
  honest_cmd (bind m k).
Proof.
  intros Hq Hr Hk w0 w1 H01. specialize (Hq w1). specialize (Hr w1).
  unfold bind. destruct (m w1) as [[a|e] w2]; simpl in *.
  - apply Hk. by etrans.
  - split; simpl; [done|]. intros [= ->]. by specialize (Hr _ eq_refl).
Qed.

Lemma honest_after_write (post : M unit) w0 w2 c evs :
  run_inv quiet_step post ->
  raises_in not_exit_zero post ->
  dest w2 = Some c ->
  log w2 = log w0 ++ evs ->
  In (EvDestWrite c) evs ->
  honest_outcome w0 (post w2).
Proof.
  intros Hq Hr Hd Hl Hin. specialize (Hq w2). specialize (Hr w2).
  destruct (post w2) as [r w3]. simpl in *.
  destruct Hq as (_ & Hd3 & (evs3 & Hl3 & _)).
  split; simpl.
  - intros _. exists c. split; [congruence|].
    rewrite (events_since_trans w0 w2 w3 evs evs3 Hl Hl3).
    apply in_or_app. by left.
  - intros ->. by specialize (Hr _ eq_refl).
Qed.

Lemma honest_write content force (post : M unit) :
  run_inv quiet_step post ->
  raises_in not_exit_zero post ->
  honest_cmd (write_cursorrules content force ;; post).
Proof.
  intros Hq Hr w0 w1 (He & Hd1 & Ho1).
  pose proof (only_log _ _ _ Ho1) as Hl1.
  pose proof (only_events_since _ _ _ Ho1) as Hq1.
  destruct He as (_ & _ & Hans & _ & _).
  unfold bind.
  assert (forall e evs, not_exit_zero e = true ->
            honest_outcome w0 (Raise e, add_events evs w1)) as Hfail.
  { intros e evs He. split; simpl; [done|]. intros [= ->]. done. }
  assert (forall s evs,
            In (EvDestWrite s) evs ->
            honest_outcome w0 (post (set_dest (Some s) (add_events evs w1))))
    as Hwritten.
  { intros s evs Hin.
    apply (honest_after_write post w0 _ s (events_since w0 w1 ++ evs));
      try done.
    - simpl. by rewrite Hl1, <- app_assoc.
    - apply in_or_app. by right. }
  destruct (dest w1) as [old|] eqn:Hd; [destruct force|].
  - rewrite write_cursorrules_unasked by auto.
    destruct content; try (by apply Hfail).
    destruct (dest_write_ok w1); [|by apply Hfail].
    apply Hwritten. simpl. auto.
  - rewrite (write_cursorrules_existing content old w1 Hd).
    destruct (confirm_answer w1) eqn:Hc.
    + destruct content; try (by apply Hfail).
      destruct (dest_write_ok w1); [|by apply Hfail].
      apply Hwritten. simpl. auto.
    + split; simpl; [done|]. intros _. split; [congruence|].
      split; [congruence|].
      rewrite (events_since_add_after w0 w1 _ _ Hl1).
      rewrite existsb_app. simpl. by rewrite orb_true_r.
    + by apply Hfail.
  - rewrite write_cursorrules_unasked by auto.
    destruct content; try (by apply Hfail).
    destruct (dest_write_ok w1); [|by apply Hfail].
    apply Hwritten. simpl. auto.
Qed.

Ltac to_not_exit_zero lem :=
  eapply raises_in_weaken; [apply lem|apply resolve_exception_not_exit_zero].

Lemma honest_template_not_found name reg :
  honest_cmd (template_not_found name reg).
Proof.
  unfold template_not_found.
  apply honest_bind; [repeat run_inv_step|raises_leaf|intros _].
  apply honest_bind; [repeat run_inv_step|raises_leaf|intros keys].
  apply honest_bind; [repeat run_inv_step|raises_leaf|intros _].
  by apply honest_raise.
Qed.

Lemma honest_install T name url force no_cache :
  honest_cmd (install T name url force no_cache).
Proof.
  unfold install.
  destruct (truthy_opt url && truthy_opt name).
  { apply honest_bind; [repeat run_inv_step|raises_leaf|intros _].
    by apply honest_raise. }
  destruct (negb (truthy_opt url) && negb (truthy_opt name)).
  { apply honest_bind; [repeat run_inv_step|raises_leaf|intros _].
    by apply honest_raise. }
  destruct (if_truthy url) as [u|].
  - unfold install_from_url.
    apply honest_bind; [repeat run_inv_step|raises_leaf|intros _].
    apply honest_bind; [repeat run_inv_step| |intros content].
    + eapply (raises_in_try_except _ is_RequestException).
      * apply raises_download_from_url.
      * by intros e ->.
      * repeat raises_step.
    + apply honest_write; [repeat run_inv_step|raises_leaf].
  - unfold install_by_name.
    apply honest_bind; [repeat run_inv_step|raises_leaf|intros reg].
    destruct (reg !! KStr (default "" name)) as [template|];
      [|apply honest_template_not_found].
    apply honest_bind; [repeat run_inv_step|raises_leaf|intros has_url].
    apply honest_bind; [repeat run_inv_step| |intros content].
    + to_not_exit_zero raises_resolve.
    + apply honest_write; [repeat run_inv_step|].
      to_not_exit_zero raises_install_success.
Qed.


(** ** Edge cases of a name-based [install] *)

(** X13: a cache file that is not valid UTF-8 stops a cache-enabled
    resolution: for a descriptor with ["url"], [install] without
    [--no-cache] and [show] raise the decoding error ([ValueError]) right
    after reading the cache, before any request for the content and
    before any access to the destination file (exit status 1). *)
Theorem undecodable_cache_aborts T name force w reg template :
  truthy name = true ->
  (get_registry T w).1 = Ok reg ->
  reg !! KStr name = Some template ->
  py_contains "url" template = Ok true ->
  cache w !! get_cache_path name = Some CacheBadUtf8 ->
  install T (Some name) None force false w =
    (Raise ValueError,
     add_events [EvGet REMOTE_REGISTRY_URL;
                 EvCacheExists (get_cache_path name);
                 EvCacheRead (get_cache_path name)] w) /\
  show T name w =
    (Raise ValueError,
     add_events [EvGet REMOTE_REGISTRY_URL;
                 EvCacheExists (get_cache_path name);
                 EvCacheRead (get_cache_path name)] w).
Proof.
  intros Hn Hreg Hlook Hurl Hc. split.
  - rewrite install_name_mode by done. unfold install_by_name.
    step_registry Hreg Hlook. rewrite Hurl, bind_lift_ok.
    simpl negb. cbv iota. rewrite !bind_assoc.
    erewrite bind_raise by (apply load_from_cache_undecodable; exact Hc).
    by rewrite add_events_app.
  - unfold show. step_registry Hreg Hlook. rewrite Hurl, bind_lift_ok.
    rewrite !bind_assoc.
    erewrite bind_raise by (apply load_from_cache_undecodable; exact Hc).
    by rewrite add_events_app.
Qed.

Lemma undecodable_cache_aborts_witness :
  install sample_TEMPLATES (Some "react") None false false sample_undecodable =
    (Raise ValueError,
     add_events [EvGet REMOTE_REGISTRY_URL;
                 EvCacheExists (get_cache_path "react");
                 EvCacheRead (get_cache_path "react")] sample_undecodable) /\
  show sample_TEMPLATES "react" sample_undecodable =
    (Raise ValueError,
     add_events [EvGet REMOTE_REGISTRY_URL;
                 EvCacheExists (get_cache_path "react");
                 EvCacheRead (get_cache_path "react")] sample_undecodable).
Proof.
  apply (undecodable_cache_aborts sample_TEMPLATES "react" false
           sample_undecodable sample_merged sample_react).
  - reflexivity.
  - reflexivity.
  - by vm_compute.
  - reflexivity.
  - by vm_compute.
Defined.

Lemma string_keys_sortable (reg : registry) :
  string_keys reg -> sortable (elements (dom reg)) = true.
Proof.
  intros Hk. unfold sortable.
  assert (forall k, k ∈ elements (dom reg) -> key_kind k = 2%nat) as Hall.
  { intros k Hin. apply elem_of_elements, elem_of_dom in Hin.
    by destruct (Hk k Hin) as (s & ->). }
  destruct (elements (dom reg)) as [|k rest]; [done|].
  apply forallb_forall. intros k' Hin.
  rewrite (Hall k) by apply list_elem_of_here.
  rewrite (Hall k'); [done|].
  apply list_elem_of_further. by apply list_elem_of_In.
Qed.

(** X14: a name that is not a key of the registry, all of whose keys are
    strings, ends [install] and [show] with [typer.Exit(code=1)] after
    the "not found" message and the list of the available keys, provided
    [rich] accepts the message with the name in it as markup; a name
    that makes the message ill-formed (one with a closing tag) ends them
    with [MarkupError] before anything is printed.  Either way there is
    no cache access, no request for any content and no access to the
    destination file. *)
Theorem unknown_template_is_rejected T name force no_cache w reg :
  truthy name = true ->
  (get_registry T w).1 = Ok reg ->
  reg !! KStr name = None ->
  string_keys reg ->
  let rejected :=
    if markup_ok w (not_found_markup name) then
      (Raise (Exit 1),
       add_events [EvGet REMOTE_REGISTRY_URL;
                   EvPrint (MsgTemplateNotFound name);
                   EvPrint (MsgAvailable (dom reg))] w)
    else (Raise MarkupError, add_events [EvGet REMOTE_REGISTRY_URL] w) in
  install T (Some name) None force no_cache w = rejected /\
  show T name w = rejected.
Proof.
  intros Hn Hreg Hlook Hkeys rejected. subst rejected.
  assert (forall evs,
    template_not_found name reg (add_events evs w) =
      if markup_ok w (not_found_markup name) then
        (Raise (Exit 1),
         add_events (evs ++ [EvPrint (MsgTemplateNotFound name);
                             EvPrint (MsgAvailable (dom reg))]) w)
      else (Raise MarkupError, add_events evs w)) as Hnf.
  { intros evs. unfold template_not_found.
    pose proof (console_print_markup_run (not_found_markup name)
                  (MsgTemplateNotFound name) evs w) as Hp.
    destruct (markup_ok w (not_found_markup name)).
    - rewrite (bind_ok _ _ _ _ _ Hp). unfold sorted_keys.
      rewrite (string_keys_sortable reg Hkeys), bind_lift_ok, bind_print.
      unfold raise. by rewrite add_events_app, <- app_assoc.
    - by rewrite (bind_raise _ _ _ _ _ Hp). }
  split.
  - rewrite install_name_mode by done. unfold install_by_name.
    step_registry Hreg Hlook. by rewrite Hnf.
  - unfold show. step_registry Hreg Hlook. by rewrite Hnf.
Qed.

Lemma sample_merged_string_keys : string_keys sample_merged.
Proof.
  intros k [v Hk]. unfold sample_merged, dict_merge in Hk. simpl in Hk.
  apply lookup_insert_Some in Hk as [[<- _]|[_ Hk]]; [by eexists|].
  unfold sample_TEMPLATES in Hk.
  apply lookup_singleton_Some in Hk as [<- _]. by eexists.
Qed.

Lemma unknown_template_is_rejected_witness :
  install sample_TEMPLATES (Some "golang") None false false sample_world =
    (Raise (Exit 1),
     add_events [EvGet REMOTE_REGISTRY_URL;
                 EvPrint (MsgTemplateNotFound "golang");
                 EvPrint (MsgAvailable (dom sample_merged))] sample_world) /\
  show sample_TEMPLATES "golang" sample_world =
    (Raise (Exit 1),
     add_events [EvGet REMOTE_REGISTRY_URL;
                 EvPrint (MsgTemplateNotFound "golang");
                 EvPrint (MsgAvailable (dom sample_merged))] sample_world).
Proof.
  refine (unknown_template_is_rejected sample_TEMPLATES "golang" false false
            sample_world sample_merged _ _ _ _).
  - reflexivity.
  - reflexivity.
  - by vm_compute.
  - exact sample_merged_string_keys.
Defined.

(** X15: a remote descriptor (one with ["url"]) that has no ["name"]
    cannot be installed: [install] raises the error of
    [template["name"]] ([KeyError] for a dict) when it builds its first
    message, after the registry request and, without [--no-cache], the
    cache lookup, and before any request for the content; the cache and
    the destination file are as before. *)
Theorem remote_descriptor_needs_name T name force no_cache w reg template e :
  truthy name = true ->
  (get_registry T w).1 = Ok reg ->
  reg !! KStr name = Some template ->
  py_contains "url" template = Ok true ->
  py_getitem template "name" = Raise e ->
  no_cache = true \/ cache w !! get_cache_path name <> Some CacheBadUtf8 ->
  let rw := install T (Some name) None force no_cache w in
  rw = (Raise e,
        add_events
          ([EvGet REMOTE_REGISTRY_URL]
           ++ (if no_cache then [] else cache_probe_events w name)) w) /\
  cache rw.2 = cache w /\
  dest rw.2 = dest w.
Proof.
  intros Hn Hreg Hlook Hurl Hname Hcache rw. subst rw.
  assert (install T (Some name) None force no_cache w =
    (Raise e,
     add_events
       ([EvGet REMOTE_REGISTRY_URL]
        ++ (if no_cache then [] else cache_probe_events w name)) w)) as ->.
  { rewrite install_name_mode by done. unfold install_by_name.
    step_registry Hreg Hlook. rewrite Hurl, bind_lift_ok.
    destruct no_cache; simpl negb; cbv iota.
    - rewrite bind_assoc, bind_ret. cbv iota. by rewrite Hname.
    - destruct Hcache as [|Hcache]; [done|].
      rewrite !bind_assoc.
      destruct (cache_misses w name) eqn:Hmiss.
      + destruct (load_from_cache_miss name
          (add_events [EvGet REMOTE_REGISTRY_URL] w)) as (o & Hload & Ho);
          [exact Hmiss|].
        erewrite bind_ok by exact Hload.
        rewrite Ho, bind_ret. cbv iota. rewrite Hname.
        by rewrite !add_events_app.
      + unfold cache_misses in Hmiss.
        destruct (cache w !! get_cache_path name) as [[s| |]|] eqn:Hc;
          try done.
        apply negb_false_iff in Hmiss.
        erewrite bind_ok by (apply load_from_cache_text; exact Hc).
        unfold cache_probe_events. rewrite Hc.
        unfold if_truthy. rewrite Hmiss, Hname.
        by rewrite !add_events_app. }
  done.
Qed.

Lemma remote_descriptor_needs_name_witness :
  let T : registry := {[ KStr "bare" := JObj [("url", JStr sample_url)] ]} in
  let w := World RegistryRequestFailed online Declined true true true sample_markup ∅ None [] in
  let rw := install T (Some "bare") None false false w in
  rw = (Raise KeyError,
        add_events
          ([EvGet REMOTE_REGISTRY_URL] ++ cache_probe_events w "bare") w) /\
  cache rw.2 = cache w /\
  dest rw.2 = dest w.
Proof.
  apply (remote_descriptor_needs_name
           {[ KStr "bare" := JObj [("url", JStr sample_url)] ]} "bare" false false
           (World RegistryRequestFailed online Declined true true true sample_markup ∅ None [])
           {[ KStr "bare" := JObj [("url", JStr sample_url)] ]}
           (JObj [("url", JStr sample_url)]) KeyError).
  - reflexivity.
  - reflexivity.
  - by vm_compute.
  - reflexivity.
  - reflexivity.
  - right. by vm_compute.
Defined.

Lemma install_content T name force no_cache w reg template content :
  (get_registry T w).1 = Ok reg ->
  reg !! KStr name = Some template ->
  py_contains "url" template = Ok false ->
  py_getitem template "content" = Ok content ->
  install_by_name T name force no_cache w =
    (write_cursorrules content force ;; install_success template)
      (add_events [EvGet REMOTE_REGISTRY_URL] w).
Proof.
  intros Hreg Hlook Hurl Hcontent. unfold install_by_name.
  step_registry Hreg Hlook. rewrite Hurl, bind_lift_ok. cbv iota.
  by rewrite Hcontent, bind_lift_ok.
Qed.

(** X16: an inline descriptor without ["name"] is installed and then
    reported as a failure: where the write goes ahead and succeeds,
    [install] leaves the embedded text in the destination file and then
    raises the error of [template["name"]] while building the success
    message, so that the process ends with status 1. *)
Theorem inline_without_name_writes_then_fails
    T name force no_cache w reg template text e :
  truthy name = true ->
  (get_registry T w).1 = Ok reg ->
  reg !! KStr name = Some template ->
  inline_descriptor template text ->
  py_getitem template "name" = Raise e ->
  goes_ahead force w = true ->
  dest_write_ok w = true ->
  let rw := install T (Some name) None force no_cache w in
  rw.1 = Raise e /\
  exit_status rw.1 = 1 /\
  dest rw.2 = Some text /\
  In (EvDestWrite text) (events_since w rw.2).
Proof.
  intros Hn Hreg Hlook Hinline Hname Hgo Hok rw. subst rw.
  rewrite install_name_mode by done.
  rewrite (install_inline T name force no_cache w reg template text) by done.
  destruct (write_cursorrules_goes_ahead text force
              (add_events [EvGet REMOTE_REGISTRY_URL] w) Hgo Hok) as (evs & Hw).
  assert (In (EvDestWrite text) evs) as Hin.
  { pose proof (honest_write (JStr text) force (ret tt)) as Hh.
    destruct (Hh ltac:(repeat run_inv_step) ltac:(apply raises_in_ret)
                (add_events [EvGet REMOTE_REGISTRY_URL] w)
                (add_events [EvGet REMOTE_REGISTRY_URL] w)) as [Hwr _];
      [reflexivity|].
    unfold bind in Hwr. rewrite Hw in Hwr. simpl in Hwr.
    destruct (Hwr eq_refl) as (c & [= <-] & Hc).
    by rewrite events_since_set_dest in Hc. }
  unfold install_with. rewrite (bind_ok _ _ _ _ _ Hw).
  unfold install_success. rewrite Hname. simpl.
  pose proof (py_getitem_raises _ _ _ Hname) as He.
  repeat split.
  - by destruct e.
  - unfold events_since. simpl. rewrite <- app_assoc, drop_app_length.
    apply in_or_app. by right.
Qed.

Lemma inline_without_name_writes_then_fails_witness :
  let T : registry := {[ KStr "bare" := JObj [("content", JStr "# rules")] ]} in
  let w := World RegistryRequestFailed offline Declined true true true sample_markup ∅ None [] in
  let rw := install T (Some "bare") None false false w in
  rw.1 = Raise KeyError /\
  exit_status rw.1 = 1 /\
  dest rw.2 = Some "# rules" /\
  In (EvDestWrite "# rules") (events_since w rw.2).
Proof.
  apply (inline_without_name_writes_then_fails
           {[ KStr "bare" := JObj [("content", JStr "# rules")] ]} "bare"
           false false
           (World RegistryRequestFailed offline Declined true true true sample_markup ∅ None [])
           {[ KStr "bare" := JObj [("content", JStr "# rules")] ]}
           (JObj [("content", JStr "# rules")]) "# rules" KeyError).
  - reflexivity.
  - reflexivity.
  - by vm_compute.
  - by split.
  - reflexivity.
  - reflexivity.
  - reflexivity.
Defined.

Lemma write_cursorrules_rejects_non_text content force w :
  (forall s, content <> JStr s) ->
  goes_ahead force w = true ->
  exists evs,
    write_cursorrules content force w = (Raise TypeError, add_events evs w) /\
    List.filter is_dest_write evs = [].
Proof.
  intros Hc Hgo. unfold goes_ahead in Hgo.
  destruct (dest w) as [old|] eqn:Hd; [destruct force|].
  - exists [EvDestExists]. rewrite write_cursorrules_unasked by auto.
    destruct content; try done. by destruct (Hc s).
  - simpl in Hgo. destruct (confirm_answer w) eqn:Ha; try done.
    exists [EvDestExists; EvPrint MsgExistsWarning; EvConfirm].
    rewrite (write_cursorrules_existing content old w Hd), Ha.
    destruct content; try done. by destruct (Hc s).
  - exists [EvDestExists]. rewrite write_cursorrules_unasked by auto.
    destruct content; try done. by destruct (Hc s).
Qed.

(** X17: a descriptor without ["url"] whose ["content"] is not a string
    (a number, a list, [null]) is refused at the write: where the write
    would go ahead, [install] raises [TypeError]; the destination file is
    neither created nor changed and no write is attempted. *)
Theorem non_text_content_is_not_written
    T name force no_cache w reg template content :
  truthy name = true ->
  (get_registry T w).1 = Ok reg ->
  reg !! KStr name = Some template ->
  py_contains "url" template = Ok false ->
  py_getitem template "content" = Ok content ->
  (forall s, content <> JStr s) ->
  goes_ahead force w = true ->
  let rw := install T (Some name) None force no_cache w in
  rw.1 = Raise TypeError /\
  dest rw.2 = dest w /\
  List.filter is_dest_write (events_since w rw.2) = [].
Proof.
  intros Hn Hreg Hlook Hurl Hcontent Hns Hgo rw. subst rw.
  rewrite install_name_mode by done.
  rewrite (install_content T name force no_cache w reg template content)
    by done.
  destruct (write_cursorrules_rejects_non_text content force
              (add_events [EvGet REMOTE_REGISTRY_URL] w) Hns Hgo)
    as (evs & Hw & Hf).
  rewrite (bind_raise _ _ _ _ _ Hw). simpl.
  rewrite add_events_app, events_since_add. simpl.
  by repeat split.
Qed.

Lemma non_text_content_is_not_written_witness :
  let T : registry :=
    {[ KStr "odd" := JObj [("name", JStr "Odd"); ("content", JNum 5)] ]} in
  let w := World RegistryRequestFailed offline Declined true true true sample_markup ∅ None [] in
  let rw := install T (Some "odd") None false false w in
  rw.1 = Raise TypeError /\
  dest rw.2 = dest w /\
  List.filter is_dest_write (events_since w rw.2) = [].
Proof.
  apply (non_text_content_is_not_written
           {[ KStr "odd" := JObj [("name", JStr "Odd"); ("content", JNum 5)] ]}
           "odd" false false
           (World RegistryRequestFailed offline Declined true true true sample_markup ∅ None [])
           {[ KStr "odd" := JObj [("name", JStr "Odd"); ("content", JNum 5)] ]}
           (JObj [("name", JStr "Odd"); ("content", JNum 5)]) (JNum 5)).
  - reflexivity.
  - reflexivity.
  - by vm_compute.
  - reflexivity.
  - reflexivity.
  - done.
  - reflexivity.
Defined.

(** ** A download that succeeds *)

(** X18: a direct-URL install whose download succeeds writes exactly
    the downloaded text, the empty text included: where the write goes
    ahead and succeeds, [install] returns and the destination file holds
    the body of the response; the cache is not involved. *)
Theorem url_install_writes_the_download T name u force no_cache w text :
  truthy_opt name = false ->
  truthy u = true ->
  fetch_result w (JStr u) = Some text ->
  goes_ahead force w = true ->
  dest_write_ok w = true ->
  let rw := install T name (Some u) force no_cache w in
  rw.1 = Ok tt /\
  dest rw.2 = Some text /\
  cache rw.2 = cache w.
Proof.
  intros Hn Hu Hf Hgo Hok rw. subst rw.
  rewrite (install_url_mode T name u force no_cache w Hn Hu).
  rewrite install_from_url_run, Hf.
  destruct (write_cursorrules_goes_ahead text force
              (add_events [EvPrint MsgDownloadingFromUrl; EvGet u] w) Hgo Hok)
    as (evs & Hw).
  by rewrite (bind_ok _ _ _ _ _ Hw).
Qed.

Lemma url_install_writes_the_download_witness :
  let w := World RegistryRequestFailed empty_body Declined true true true sample_markup ∅
                 (Some "# my own rules") [] in
  let rw := install sample_TEMPLATES None (Some sample_url) true false w in
  rw.1 = Ok tt /\
  dest rw.2 = Some "" /\
  cache rw.2 = cache w.
Proof.
  apply (url_install_writes_the_download sample_TEMPLATES None sample_url true
           false
           (World RegistryRequestFailed empty_body Declined true true true sample_markup ∅
                  (Some "# my own rules") []) "");
    reflexivity.
Defined.



(** ** The [list] command *)

Lemma pykey_leb_total a b : pykey_leb a b = true \/ pykey_leb b a = true.
Proof.
  destruct a as [|x|s], b as [|y|t]; simpl; auto.
  - destruct (Z.leb_spec x y); [by left|right]. apply Z.leb_le. lia.
  - apply String.leb_total.
Qed.

#[global] Instance item_le_total : Total item_le.
Proof. intros a b. apply pykey_leb_total. Qed.

Lemma table_rows_listable reg items :
  listable reg ->
  (forall item, item ∈ items -> reg !! item.1 = Some item.2) ->
  exists rows,
    table_rows items = Ok rows /\
    Forall2 (fun item r => item.1 = KStr r.1.1 /\
                           py_getitem item.2 "name" = Ok (JStr r.1.2) /\
                           py_getitem item.2 "description" = Ok (JStr r.2))
            items rows.
Proof.
  intros Hl. induction items as [|[k t] rest IH]; intros Hin.
  - exists []. by split.
  - destruct (Hl k t) as (s & n & d & -> & Hn & Hd).
    { apply (Hin (k, t)). apply list_elem_of_here. }
    destruct IH as (rows & Hrows & Hall).
    { intros item Hitem. apply Hin. by apply list_elem_of_further. }
    exists ((s, n, d) :: rows). split.
    + simpl. unfold add_row. simpl. by rewrite Hn, Hd, Hrows.
    + by constructor.
Qed.

Lemma table_rows_fails items item e :
  item ∈ items -> add_row item = Raise e ->
  exists e', table_rows items = Raise e'.
Proof.
  intros Hin He. induction items as [|x rest IH]; [by apply not_elem_of_nil in Hin|].
  simpl. apply elem_of_cons in Hin as [<-|Hin].
  - rewrite He. by eexists.
  - destruct (add_row x); [|by eexists].
    destruct (IH Hin) as (e' & ->). by eexists.
Qed.

Lemma list_templates_world T w :
  (list_templates T w).2 = add_events [EvGet REMOTE_REGISTRY_URL] w.
Proof.
  unfold list_templates, bind, lift.
  pose proof (get_registry_world T w) as Hw.
  destruct (get_registry T w) as [[reg|e] w']; simpl in *; [|done].
  destruct (sorted_items reg); simpl; done.
Qed.

Lemma listable_string_keys reg : listable reg -> string_keys reg.
Proof.
  intros Hl k [t Hk]. destruct (Hl k t Hk) as (s & _ & _ & -> & _). by eexists.
Qed.

(** X20: [list] shows the whole registry, sorted.  When every key of
    the registry is a string and every descriptor has a string ["name"]
    and ["description"], the table has one row per template, in
    ascending order of the keys, and a row [(key, name, description)] is
    in the table exactly when the registry has a descriptor with that
    name and description under that key.  The only effect of the command
    on the world is the registry request. *)
Theorem list_shows_the_sorted_registry T w reg :
  (get_registry T w).1 = Ok reg ->
  listable reg ->
  exists rows,
    list_templates T w = (Ok rows, add_events [EvGet REMOTE_REGISTRY_URL] w) /\
    Sorted row_le rows /\
    length rows = size reg /\
    (forall k n d,
       (k, n, d) ∈ rows <->
       exists t, reg !! KStr k = Some t /\
                 py_getitem t "name" = Ok (JStr n) /\
                 py_getitem t "description" = Ok (JStr d)).
Proof.
  intros Hreg Hl.
  pose proof (merge_sort_Permutation item_le (map_to_list reg)) as Hperm.
  pose proof (Sorted_merge_sort item_le (map_to_list reg)) as Hsorted.
  set (items := merge_sort item_le (map_to_list reg)) in *.
  assert (forall item, item ∈ items <-> reg !! item.1 = Some item.2) as Hitems.
  { intros [k t]. rewrite Hperm. apply elem_of_map_to_list. }
  destruct (table_rows_listable reg items Hl) as (rows & Hrows & Hall).
  { intros item. apply Hitems. }
  exists rows. split; [|split; [|split]].
  - pose proof (list_templates_world T w) as Hw.
    unfold list_templates in *.
    rewrite (bind_ok _ _ _ _ _ (get_registry_run T w reg Hreg)) in *.
    unfold sorted_items in *.
    rewrite (string_keys_sortable reg (listable_string_keys reg Hl)) in *.
    rewrite bind_lift_ok in *. fold items in Hw |- *.
    unfold lift in *. by rewrite Hrows.
  - clear Hrows Hitems Hperm. induction Hall as [|item r items' rows' Hr Hall IH];
      [constructor|].
    apply Sorted_inv in Hsorted as [Hs Hhd].
    constructor; [by apply IH|].
    destruct Hall as [|item2 r2 ? ? Hr2 ?]; [constructor|].
    constructor. apply HdRel_inv in Hhd. unfold item_le in Hhd.
    destruct Hr as (Hk & _), Hr2 as (Hk2 & _). rewrite Hk, Hk2 in Hhd.
    exact Hhd.
  - pose proof (Forall2_length _ _ _ Hall) as Hlen.
    transitivity (length items); [by symmetry|].
    rewrite Hperm. apply length_map_to_list.
  - intros k n d. split.
    + intros Hin. apply list_elem_of_lookup in Hin as [i Hi].
      destruct (Forall2_lookup_r _ _ _ _ _ Hall Hi)
        as ([k' t] & Hi' & Hk & Hn & Hd).
      simpl in *. subst k'.
      exists t. split; [|done].
      apply (Hitems (KStr k, t)). by eapply list_elem_of_lookup_2.
    + intros (t & Hk & Hn & Hd).
      apply (Hitems (KStr k, t)) in Hk.
      apply list_elem_of_lookup in Hk as [i Hi].
      destruct (Forall2_lookup_l _ _ _ _ _ Hall Hi) as ([[k' n'] d'] & Hr & Hk' & Hn' & Hd').
      simpl in *. injection Hk' as <-.
      rewrite Hn in Hn'. injection Hn' as <-.
      rewrite Hd in Hd'. injection Hd' as <-.
      by eapply list_elem_of_lookup_2.
Qed.

Lemma sample_merged_listable : listable sample_merged.
Proof.
  intros k t Hk. unfold sample_merged, dict_merge in Hk. simpl in Hk.
  apply lookup_insert_Some in Hk as [[<- <-]|[_ Hk]].
  { by exists "react", "React", "React rules". }
  unfold sample_TEMPLATES in Hk.
  apply lookup_singleton_Some in Hk as [<- <-].
  by exists "python", "Python", "Python rules".
Qed.

Lemma list_shows_the_sorted_registry_witness :
  exists rows,
    list_templates sample_TEMPLATES sample_world =
      (Ok rows, add_events [EvGet REMOTE_REGISTRY_URL] sample_world) /\
    Sorted row_le rows /\
    length rows = size sample_merged /\
    (forall k n d,
       (k, n, d) ∈ rows <->
       exists t, sample_merged !! KStr k = Some t /\
                 py_getitem t "name" = Ok (JStr n) /\
                 py_getitem t "description" = Ok (JStr d)).
Proof.
  apply (list_shows_the_sorted_registry sample_TEMPLATES sample_world
           sample_merged).
  - reflexivity.
  - exact sample_merged_listable.
Defined.

(** The table of the sample registry. *)
Example list_sample_rows :
  (list_templates sample_TEMPLATES sample_world).1 =
    Ok [("python", "Python", "Python rules"); ("react", "React", "React rules")].
Proof. by vm_compute. Qed.

(** X21: one descriptor that [add_row] cannot take (no ["name"] or
    ["description"], or one that is not a string) breaks the whole
    listing: [list] raises and shows no table, whatever the other
    templates are. *)
Theorem list_fails_on_a_malformed_descriptor T w reg k t e :
  (get_registry T w).1 = Ok reg ->
  reg !! k = Some t ->
  add_row (k, t) = Raise e ->
  exists e',
    list_templates T w = (Raise e', add_events [EvGet REMOTE_REGISTRY_URL] w).
Proof.
  intros Hreg Hk He.
  pose proof (list_templates_world T w) as Hw.
  unfold list_templates in *.
  rewrite (bind_ok _ _ _ _ _ (get_registry_run T w reg Hreg)) in *.
  unfold sorted_items in *.
  destruct (sortable (elements (dom reg))).
  - rewrite bind_lift_ok in *.
    destruct (table_rows_fails (merge_sort item_le (map_to_list reg)) (k, t) e)
      as (e' & Hrows); [|done|].
    { rewrite merge_sort_Permutation. by apply elem_of_map_to_list. }
    exists e'. unfold lift in *. by rewrite Hrows.
  - by exists TypeError.
Qed.

Lemma list_fails_on_a_malformed_descriptor_witness :
  let T : registry :=
    {[ KStr "bare" := JObj [("name", JStr "Bare"); ("content", JStr "# rules")] ]} in
  let w := World RegistryRequestFailed offline Declined true true true sample_markup ∅ None [] in
  exists e',
    list_templates T w = (Raise e', add_events [EvGet REMOTE_REGISTRY_URL] w).
Proof.
  apply (list_fails_on_a_malformed_descriptor
           {[ KStr "bare" :=
                JObj [("name", JStr "Bare"); ("content", JStr "# rules")] ]}
           (World RegistryRequestFailed offline Declined true true true sample_markup ∅ None [])
           {[ KStr "bare" :=
                JObj [("name", JStr "Bare"); ("content", JStr "# rules")] ]}
           (KStr "bare")
           (JObj [("name", JStr "Bare"); ("content", JStr "# rules")]) KeyError).
  - reflexivity.
  - by vm_compute.
  - reflexivity.
Defined.
